(** * Subscription service: the period-overlap cost aggregation

    A shallow embedding of [internal/service/subscription.go], with the
    parts of [models] and [internal/repository] it touches and the Go
    library functions it calls: [strings.Split], [strconv.Atoi],
    [time.Date], [Time.After], [Time.Before], [Time.Year], [Time.Month].

    - Go's [int] is the 64-bit signed integer.  It is embedded in [Z] and
      every arithmetic operation wraps explicitly ([GoInt]).
    - A Go [string] is a sequence of bytes, embedded as [string].
    - A call returns or panics ([exec]); a Go [error] is a returned value.
    - The repository is an interface over the state of a store; the
      service runs in a [World] that holds the store, the clock, and the
      trace of repository calls and log entries.

    The specification's own notions (calendar month, its order, the text
    form, the overlap count, the total) are in [Spec], defined from the
    specification's words; the properties relate the two sides. *)

From Stdlib Require Import ZArith Lia Ascii String List Bool.
From stdpp Require Import base numbers list list_numbers strings gmap.
From stdpp Require Import pretty.

Local Open Scope Z_scope.

(** ** Machine integers *)

Module GoInt.

Definition minInt : Z := - 2 ^ 63.
Definition maxInt : Z := 2 ^ 63 - 1.
Definition maxUint64 : Z := 2 ^ 64 - 1.

(** Two's-complement reduction to [int] (= [int64]) and to [uint64]. *)
Definition wrap (z : Z) : Z := (z + 2 ^ 63) mod 2 ^ 64 - 2 ^ 63.
Definition wrapU (z : Z) : Z := z mod 2 ^ 64.

Definition is_int (z : Z) : Prop := minInt <= z <= maxInt.

Definition add (a b : Z) : Z := wrap (a + b).
Definition sub (a b : Z) : Z := wrap (a - b).
Definition mul (a b : Z) : Z := wrap (a * b).
Definition neg (a : Z) : Z := wrap (- a).
(** Go's [/] and [%] truncate towards zero. *)
Definition div (a b : Z) : Z := wrap (Z.quot a b).
Definition rem (a b : Z) : Z := Z.rem a b.

Definition addU (a b : Z) : Z := wrapU (a + b).
Definition subU (a b : Z) : Z := wrapU (a - b).
Definition mulU (a b : Z) : Z := wrapU (a * b).

End GoInt.

(** ** Outcomes of Go calls

    A call either returns or panics; [error] values are ordinary results. *)

Inductive panic : Type :=
| IndexOutOfRange (index len : Z).

Inductive exec (A : Type) : Type :=
| Ret (a : A)
| Panic (p : panic).
Arguments Ret {A} a.
Arguments Panic {A} p.

Definition exec_bind {A B} (m : exec A) (k : A -> exec B) : exec B :=
  match m with
  | Ret a => k a
  | Panic p => Panic p
  end.

Notation "'let*' x ':=' m 'in' k" := (exec_bind m (fun x => k))
  (at level 10, x pattern, m at level 100, k at level 200).

(** ** package strings *)

Module strings.

(** [strings.Split(s, sep)] for a one-byte separator, the only way the
    service calls it: the pieces of [s] between consecutive occurrences
    of [sep], in order.  The result is never empty. *)
Fixpoint Split (s : string) (sep : ascii) : list string :=
  match s with
  | EmptyString => [EmptyString]
  | String c rest =>
      if Ascii.eqb c sep then EmptyString :: Split rest sep
      else match Split rest sep with
           | p :: ps => String c p :: ps
           | [] => [String c EmptyString]
           end
  end.

End strings.

(** ** package strconv

    [Atoi] with its fast path for short inputs and [ParseInt(s, 10, 0)],
    which reads the digits with [ParseUint(s, 10, 64)], behind it.  The
    value returned next to an error is kept: [parsePeriod] uses it. *)

Module strconv.

Inductive NumError : Type := ErrSyntax | ErrRange.

Definition byte_val (c : ascii) : Z := Z.of_N (N_of_ascii c).

(** Byte arithmetic wraps modulo 256. *)
Definition byte_sub (a b : Z) : Z := (a - b) mod 256.
Definition byte_add (a b : Z) : Z := (a + b) mod 256.

(** [lower(c) = c | ('x' - 'X')] *)
Definition lower (c : Z) : Z := Z.lor c 32.

(** The digit loop of [ParseUint(s, 10, 64)]. *)
Definition cutoff10 : Z := GoInt.maxUint64 / 10 + 1.

Fixpoint parseUint_loop (s : string) (n : Z) : Z * option NumError :=
  match s with
  | EmptyString => (n, None)
  | String ch rest =>
      let c := byte_val ch in
      let d :=
        if (48 <=? c) && (c <=? 57) then Some (byte_sub c 48)
        else if (97 <=? lower c) && (lower c <=? 122)
             then Some (byte_add (byte_sub (lower c) 97) 10)
             else None in
      match d with
      | None => (0, Some ErrSyntax)
      | Some d =>
          if 10 <=? d then (0, Some ErrSyntax)
          else if cutoff10 <=? n then (GoInt.maxUint64, Some ErrRange)
          else
            let n' := GoInt.mulU n 10 in
            let n1 := GoInt.addU n' d in
            if (n1 <? n') || (GoInt.maxUint64 <? n1)
            then (GoInt.maxUint64, Some ErrRange)
            else parseUint_loop rest n1
      end
  end.

Definition ParseUint10 (s : string) : Z * option NumError :=
  match s with
  | EmptyString => (0, Some ErrSyntax)
  | _ => parseUint_loop s 0
  end.

(** [ParseInt(s, 10, 0)] *)
Definition ParseInt10 (s : string) : Z * option NumError :=
  match s with
  | EmptyString => (0, Some ErrSyntax)
  | String c0 rest =>
      let '(neg, s1) :=
        if Ascii.eqb c0 "+" then (false, rest)
        else if Ascii.eqb c0 "-" then (true, rest)
        else (false, s) in
      let '(un, err) := ParseUint10 s1 in
      match err with
      | Some ErrSyntax => (0, Some ErrSyntax)
      | _ =>
          let cutoff := 2 ^ 63 in
          if negb neg && (cutoff <=? un) then (cutoff - 1, Some ErrRange)
          else if neg && (cutoff <? un) then (- cutoff, Some ErrRange)
          else
            let n := GoInt.wrap un in
            (if neg then GoInt.neg n else n, None)
      end
  end.

(** The fast path of [Atoi]: at most 18 bytes, so no overflow check. *)
Fixpoint atoi_fast_loop (s : string) (n : Z) : option Z :=
  match s with
  | EmptyString => Some n
  | String ch rest =>
      let d := byte_sub (byte_val ch) 48 in
      if 9 <? d then None
      else atoi_fast_loop rest (GoInt.add (GoInt.mul n 10) d)
  end.

Definition Atoi (s : string) : Z * option NumError :=
  let sLen := Z.of_nat (String.length s) in
  if (0 <? sLen) && (sLen <? 19) then
    match s with
    | EmptyString => (0, Some ErrSyntax)
    | String c0 rest =>
        let signed := Ascii.eqb c0 "-" || Ascii.eqb c0 "+" in
        let s1 := if signed then rest else s in
        if signed && (Z.of_nat (String.length s1) <? 1)
        then (0, Some ErrSyntax)
        else
          match atoi_fast_loop s1 0 with
          | None => (0, Some ErrSyntax)
          | Some n =>
              (if Ascii.eqb c0 "-" then GoInt.neg n else n, None)
          end
    end
  else ParseInt10 s.

End strconv.

(** ** package time

    The functions follow the package as of Go 1.22 ([Date], [norm],
    [daysSinceEpoch], [abs], [absDate], [After], [Before]).

    Only wall-clock times in UTC without a monotonic reading occur in the
    service's comparisons: every one is built by [time.Date(..., time.UTC)].
    Such a [Time] is its count of seconds since January 1, year 1 ([ext])
    and its nanoseconds within the second. *)

Module time.

Record Time : Type := mkTime { ext : Z; nsec : Z }.

Inductive Location : Type := UTC.

Definition secondsPerMinute : Z := 60.
Definition secondsPerHour : Z := 60 * secondsPerMinute.
Definition secondsPerDay : Z := 24 * secondsPerHour.
Definition daysPer400Years : Z := 365 * 400 + 97.
Definition daysPer100Years : Z := 365 * 100 + 24.
Definition daysPer4Years : Z := 365 * 4 + 1.

Definition absoluteZeroYear : Z := -292277022399.
Definition internalYear : Z := 1.
Definition absoluteToInternal : Z := -9223371966579724800.
Definition internalToAbsolute : Z := - absoluteToInternal.
Definition unixToInternal : Z :=
  (1969 * 365 + 1969 / 4 - 1969 / 100 + 1969 / 400) * secondsPerDay.
Definition internalToUnix : Z := - unixToInternal.

Definition daysBefore : list Z :=
  [0; 31; 31 + 28; 31 + 28 + 31; 31 + 28 + 31 + 30;
   31 + 28 + 31 + 30 + 31; 31 + 28 + 31 + 30 + 31 + 30;
   31 + 28 + 31 + 30 + 31 + 30 + 31;
   31 + 28 + 31 + 30 + 31 + 30 + 31 + 31;
   31 + 28 + 31 + 30 + 31 + 30 + 31 + 31 + 30;
   31 + 28 + 31 + 30 + 31 + 30 + 31 + 31 + 30 + 31;
   31 + 28 + 31 + 30 + 31 + 30 + 31 + 31 + 30 + 31 + 30;
   31 + 28 + 31 + 30 + 31 + 30 + 31 + 31 + 30 + 31 + 30 + 31].

Definition daysBefore_at (i : Z) : Z := nth (Z.to_nat i) daysBefore 0.

Definition March : Z := 3.
Definition February : Z := 2.

Definition isLeap (year : Z) : bool :=
  (GoInt.rem year 4 =? 0)
  && (negb (GoInt.rem year 100 =? 0) || (GoInt.rem year 400 =? 0)).

(** [norm(hi, lo, base)]: bring [lo] into [0, base), carrying into [hi]. *)
Definition norm (hi lo base : Z) : Z * Z :=
  let '(hi, lo) :=
    if lo <? 0 then
      let n := GoInt.add (GoInt.div (GoInt.sub (GoInt.neg lo) 1) base) 1 in
      (GoInt.sub hi n, GoInt.add lo (GoInt.mul n base))
    else (hi, lo) in
  if base <=? lo then
    let n := GoInt.div lo base in
    (GoInt.add hi n, GoInt.sub lo (GoInt.mul n base))
  else (hi, lo).

(** Days from the absolute epoch to January 1 of [year] ([uint64]). *)
Definition daysSinceEpoch (year : Z) : Z :=
  let y := GoInt.wrapU (year - absoluteZeroYear) in
  let n := y / 400 in
  let y := GoInt.subU y (GoInt.mulU 400 n) in
  let d := GoInt.mulU daysPer400Years n in
  let n := y / 100 in
  let y := GoInt.subU y (GoInt.mulU 100 n) in
  let d := GoInt.addU d (GoInt.mulU daysPer100Years n) in
  let n := y / 4 in
  let y := GoInt.subU y (GoInt.mulU 4 n) in
  let d := GoInt.addU d (GoInt.mulU daysPer4Years n) in
  let n := y in
  GoInt.addU d (GoInt.mulU 365 n).

Definition Date (year month day hour min sec nsec : Z) (loc : Location)
  : Time :=
  let m := GoInt.sub month 1 in
  let '(year, m) := norm year m 12 in
  let month := GoInt.add m 1 in
  let '(sec, nsec) := norm sec nsec 1000000000 in
  let '(min, sec) := norm min sec 60 in
  let '(hour, min) := norm hour min 60 in
  let '(day, hour) := norm day hour 24 in
  let d := daysSinceEpoch year in
  let d := GoInt.addU d (GoInt.wrapU (daysBefore_at (month - 1))) in
  let d := if isLeap year && (March <=? month) then GoInt.addU d 1 else d in
  let d := GoInt.addU d (GoInt.wrapU (GoInt.sub day 1)) in
  let abs := GoInt.mulU d secondsPerDay in
  let abs :=
    GoInt.addU abs
      (GoInt.wrapU
         (GoInt.add
            (GoInt.add (GoInt.mul hour secondsPerHour)
                       (GoInt.mul min secondsPerMinute)) sec)) in
  let unix :=
    GoInt.add (GoInt.wrap abs) (absoluteToInternal + internalToUnix) in
  match loc with
  | UTC => mkTime (GoInt.add unix unixToInternal) nsec
  end.

Definition After (t u : Time) : bool :=
  (ext u <? ext t) || ((ext t =? ext u) && (nsec u <? nsec t)).

Definition Before (t u : Time) : bool :=
  (ext t <? ext u) || ((ext t =? ext u) && (nsec t <? nsec u)).

(** Seconds since the absolute epoch ([uint64]). *)
Definition abs (t : Time) : Z :=
  let sec := GoInt.add (ext t) internalToUnix in
  GoInt.wrapU (sec + (unixToInternal + internalToAbsolute)).

(** [absDate(abs, full)]: the civil year, month, day and day of year.
    [absYearDay] is its first half, up to [if !full { return }]. *)
Definition absYearDay (abs : Z) : Z * Z :=
  let d := abs / secondsPerDay in
  let n := d / daysPer400Years in
  let y := GoInt.mulU 400 n in
  let d := GoInt.subU d (GoInt.mulU daysPer400Years n) in
  let n := d / daysPer100Years in
  let n := GoInt.subU n (Z.shiftr n 2) in
  let y := GoInt.addU y (GoInt.mulU 100 n) in
  let d := GoInt.subU d (GoInt.mulU daysPer100Years n) in
  let n := d / daysPer4Years in
  let y := GoInt.addU y (GoInt.mulU 4 n) in
  let d := GoInt.subU d (GoInt.mulU daysPer4Years n) in
  let n := d / 365 in
  let n := GoInt.subU n (Z.shiftr n 2) in
  let y := GoInt.addU y n in
  let d := GoInt.subU d (GoInt.mulU 365 n) in
  let year := GoInt.add (GoInt.wrap y) absoluteZeroYear in
  let yday := GoInt.wrap d in
  (year, yday).

Definition absDate (abs : Z) (full : bool) : Z * Z * Z * Z :=
  let '(year, yday) := absYearDay abs in
  if negb full then (year, 0, 0, yday)
  else
    let day := yday in
    if isLeap year && (day =? 31 + 29 - 1) then (year, February, 29, yday)
    else
      let day :=
        if isLeap year && (31 + 29 - 1 <? day) then GoInt.sub day 1
        else day in
      let month := GoInt.div day 31 in
      let e := daysBefore_at (month + 1) in
      let '(month, begin) :=
        if e <=? day then (GoInt.add month 1, e)
        else (month, daysBefore_at month) in
      let month := GoInt.add month 1 in
      (year, month, GoInt.add (GoInt.sub day begin) 1, yday).

Definition date (t : Time) (full : bool) : Z * Z * Z * Z :=
  absDate (abs t) full.

Definition Year (t : Time) : Z :=
  let '(year, _, _, _) := date t false in year.

Definition Month (t : Time) : Z :=
  let '(_, month, _, _) := date t true in month.

End time.

(** ** package models *)

Module models.

(** [uuid.UUID] is a 16-byte array, read here as a 128-bit number. *)
Definition UUID : Type := N.

Record Subscription : Type := mkSubscription {
  ID : UUID;
  ServiceName : string;
  Price : Z;
  UserID : UUID;
  StartDate : string;
  EndDate : option string;
  CreatedAt : time.Time;
  UpdatedAt : time.Time
}.

Record SubscriptionUpdate : Type := mkSubscriptionUpdate {
  upd_ServiceName : option string;
  upd_Price : option Z;
  upd_UserID : option UUID;
  upd_StartDate : option string;
  upd_EndDate : option string
}.

Record TotalCostRequest : Type := mkTotalCostRequest {
  req_UserID : option UUID;
  req_ServiceName : option string;
  StartPeriod : string;
  EndPeriod : string
}.

Record TotalCostResponse : Type := mkTotalCostResponse {
  TotalCost : Z
}.

Record SubscriptionCreate : Type := mkSubscriptionCreate {
  new_ServiceName : string;
  new_Price : Z;
  new_UserID : UUID;
  new_StartDate : string;
  new_EndDate : option string
}.

End models.

(** ** Errors, the repository interface and the world the service runs in *)

Inductive error : Type :=
| Errorf (msg : string)          (* fmt.Errorf(msg) *)
| ErrNoRows                      (* sql.ErrNoRows *)
| DriverError (msg : string).    (* any other error of the store *)

Inductive result (A : Type) : Type :=
| Ok (a : A)
| Err (e : error).
Arguments Ok {A} a.
Arguments Err {A} e.

#[global] Instance error_eq_dec : EqDecision error.
Proof. solve_decision. Defined.

(** [err.Error()] *)
Definition Error (e : error) : string :=
  match e with
  | Errorf msg => msg
  | ErrNoRows => "sql: no rows in result set"
  | DriverError msg => msg
  end.

(** [errors.Is(err, target)]: none of these errors wraps another one
    ([fmt.Errorf] is only called without [%w] in the service). *)
Definition errors_Is (err target : error) : bool := bool_decide (err = target).

(** A value stored in the [map[string]interface{}] of filters. *)
Inductive FilterValue : Type :=
| FUUID (u : models.UUID)
| FString (s : string).

Module repository.

(** The methods of [SubscriptionRepository] the modelled operations call,
    as transformers of the store's state [DB]. *)
Record SubscriptionRepository (DB : Type) : Type := {
  GetByID : models.UUID -> DB -> result models.Subscription;
  List : gmap string FilterValue -> DB -> result (list models.Subscription);
  Update : models.Subscription -> DB -> DB * option error
}.
Arguments GetByID {DB} _ _ _.
Arguments List {DB} _ _ _.
Arguments Update {DB} _ _ _.

(** The table [subscriptions] keyed by its primary key, with the WHERE
    clauses of the repository's three statements.  Column constraints
    of the migration are not part of it. *)
Definition matches (filters : gmap string FilterValue)
    (row : models.Subscription) : bool :=
  match filters !! "user_id" with
  | Some (FUUID u) => N.eqb (models.UserID row) u
  | Some (FString _) => false
  | None => true
  end
  && match filters !! "service_name" with
     | Some (FString n) => String.eqb (models.ServiceName row) n
     | Some (FUUID _) => false
     | None => true
     end.

Definition table
  : SubscriptionRepository (gmap models.UUID models.Subscription) := {|
  GetByID id db :=
    match db !! id with
    | Some row => Ok row
    | None => Err ErrNoRows
    end;
  List filters db :=
    Ok (filter (fun row => matches filters row = true) (map_to_list db).*2);
  Update subscription db :=
    (match db !! models.ID subscription with
     | Some row =>
         <[models.ID subscription :=
             models.mkSubscription
               (models.ID row)
               (models.ServiceName subscription)
               (models.Price subscription)
               (models.UserID subscription)
               (models.StartDate subscription)
               (models.EndDate subscription)
               (models.CreatedAt row)
               (models.UpdatedAt subscription)]> db
     | None => db
     end, None)
|}.

(** [SubscriptionRepository] with its two remaining methods. *)
Record CRUD (DB : Type) : Type := {
  reads : SubscriptionRepository DB;
  Create : models.Subscription -> DB -> DB * option error;
  Delete : models.UUID -> DB -> DB * option error
}.
Arguments reads {DB} _.
Arguments Create {DB} _ _ _.
Arguments Delete {DB} _ _ _.

(** INSERT fails on a primary key already present; DELETE of no row is not
    an error.  The table enforces nothing else: the limits of the columns
    and the check on the price are left out. *)
Definition crud_table : CRUD (gmap models.UUID models.Subscription) := {|
  reads := table;
  Create subscription db :=
    match db !! models.ID subscription with
    | Some _ =>
        (db, Some (DriverError
                     "pq: duplicate key value violates unique constraint"))
    | None => (<[models.ID subscription := subscription]> db, None)
    end;
  Delete id db := (delete id db, None)
|}.

(** What the five statements guarantee about the rows of the table,
    whatever else the database enforces (the primary key, the column
    types, the check on the price): a SELECT returns rows of the table,
    an INSERT adds at most the row it was given, an UPDATE at most a row
    with the dates it was given, a DELETE none. *)
Record Rows {DB : Type} (repo : CRUD DB)
    (row : DB -> models.Subscription -> Prop) : Prop := {
  GetByID_row : forall id db sub,
    GetByID (reads repo) id db = Ok sub -> row db sub;
  List_rows : forall filters db subs,
    List (reads repo) filters db = Ok subs -> Forall (row db) subs;
  Create_rows : forall subscription db db' err sub,
    Create repo subscription db = (db', err) ->
    row db' sub -> row db sub \/ sub = subscription;
  Update_rows : forall subscription db db' err sub,
    Update (reads repo) subscription db = (db', err) ->
    row db' sub ->
    row db sub
    \/ (models.StartDate sub = models.StartDate subscription
        /\ models.EndDate sub = models.EndDate subscription);
  Delete_rows : forall id db db' err sub,
    Delete repo id db = (db', err) -> row db' sub -> row db sub
}.

(** The query text and the arguments [List] hands to [db.Select].  A value
    of the filter map is an [interface{}]: [None] is its nil. *)
Definition select_all : string :=
  "SELECT id, service_name, price, user_id, start_date, end_date, created_at, updated_at FROM subscriptions WHERE 1=1".

Definition List_query (filters : gmap string (option FilterValue))
  : string * list FilterValue :=
  let query := select_all in
  let args : list FilterValue := [] in
  let argCount := 0 in
  let '(query, args, argCount) :=
    match filters !! "user_id" with
    | Some (Some userID) =>
        let argCount := GoInt.add argCount 1 in
        (query +:+ " AND user_id = $" +:+ pretty argCount,
         args ++ [userID], argCount)
    | _ => (query, args, argCount)
    end in
  let '(query, args, argCount) :=
    match filters !! "service_name" with
    | Some (Some serviceName) =>
        let argCount := GoInt.add argCount 1 in
        (query +:+ " AND service_name = $" +:+ pretty argCount,
         args ++ [serviceName], argCount)
    | _ => (query, args, argCount)
    end in
  (query, args).

End repository.

Inductive Event : Type :=
| CallGetByID (id : models.UUID)
| CallList (filters : gmap string FilterValue)
| CallUpdate (subscription : models.Subscription)
| LogError (msg : string)
| LogInfo (msg : string).

(** The store, the clock read by [time.Now], and what was called so far. *)
Record World (DB : Type) : Type := mkWorld {
  db : DB;
  now : time.Time;
  trace : list Event
}.
Arguments mkWorld {DB} _ _ _.
Arguments db {DB} _.
Arguments now {DB} _.
Arguments trace {DB} _.

Definition emit {DB} (e : Event) (w : World DB) : World DB :=
  mkWorld (db w) (now w) (trace w ++ [e]).

(** ** package service *)

Module service.

Definition index {A} (l : list A) (i : Z) : exec A :=
  match l !! Z.to_nat i with
  | Some x => Ret x
  | None => Panic (IndexOutOfRange i (Z.of_nat (length l)))
  end.

Definition isValidDateFormat (date : string) : bool :=
  let parts := strings.Split date "-" in
  if negb (Z.of_nat (length parts) =? 2) then false
  else
    match parts with
    | p0 :: p1 :: _ =>
        let '(month, err1) := strconv.Atoi p0 in
        let '(year, err2) := strconv.Atoi p1 in
        if bool_decide (err1 <> None) || bool_decide (err2 <> None)
        then false
        else (1 <=? month) && (month <=? 12)
             && (1900 <=? year) && (year <=? 9999)
    | _ => false
    end.

Definition parsePeriod (period : string) : exec (time.Time * option error) :=
  let parts := strings.Split period "-" in
  let* p0 := index parts 0 in
  let '(month, _) := strconv.Atoi p0 in
  let* p1 := index parts 1 in
  let '(year, _) := strconv.Atoi p1 in
  Ret (time.Date year month 1 0 0 0 0 time.UTC, None).

Definition maxTime (a b : time.Time) : time.Time :=
  if time.After a b then a else b.

Definition minTime (a b : time.Time) : time.Time :=
  if time.Before a b then a else b.

Definition calculateOverlapMonths
    (periodStart periodEnd subStart subEnd : time.Time) : Z :=
  let overlapStart := maxTime periodStart subStart in
  let overlapEnd := minTime periodEnd subEnd in
  if time.After overlapStart overlapEnd then 0
  else
    let yearDiff := GoInt.sub (time.Year overlapEnd) (time.Year overlapStart) in
    let monthDiff :=
      GoInt.sub (time.Month overlapEnd) (time.Month overlapStart) in
    GoInt.add (GoInt.add (GoInt.mul yearDiff 12) monthDiff) 1.

(** The body of the [for _, sub := range subscriptions] loop of
    [GetTotalCost]: the new value of [totalCost]. *)
Definition totalCost_step (startPeriod endPeriod : time.Time)
    (totalCost : Z) (sub : models.Subscription) : exec Z :=
  let* (subStart, _) := parsePeriod (models.StartDate sub) in
  match models.EndDate sub with
  | None =>
      if negb (time.Before subStart startPeriod)
         && negb (time.After subStart endPeriod)
      then Ret (GoInt.add totalCost (models.Price sub))
      else Ret totalCost
  | Some endDate =>
      let* (subEnd, _) := parsePeriod endDate in
      let overlapMonths :=
        calculateOverlapMonths startPeriod endPeriod subStart subEnd in
      Ret (GoInt.add totalCost (GoInt.mul (models.Price sub) overlapMonths))
  end.

Fixpoint totalCost_loop (startPeriod endPeriod : time.Time)
    (subscriptions : list models.Subscription) (totalCost : Z) : exec Z :=
  match subscriptions with
  | [] => Ret totalCost
  | sub :: rest =>
      let* totalCost := totalCost_step startPeriod endPeriod totalCost sub in
      totalCost_loop startPeriod endPeriod rest totalCost
  end.

Definition format_error : error :=
  Errorf "start_period and end_period must be in MM-YYYY format".
Definition range_error : error :=
  Errorf "start_period must be before or equal to end_period".

Section Service.

Context {DB : Type} (repo : repository.SubscriptionRepository DB).

Definition GetTotalCost (req : models.TotalCostRequest) (w : World DB)
  : exec (result models.TotalCostResponse * World DB) :=
  if negb (isValidDateFormat (models.StartPeriod req))
     || negb (isValidDateFormat (models.EndPeriod req))
  then Ret (Err format_error, w)
  else
    let* (startPeriod, err) := parsePeriod (models.StartPeriod req) in
    if bool_decide (err <> None)
    then Ret (Err (Errorf "invalid start_period"), w)
    else
      let* (endPeriod, err) := parsePeriod (models.EndPeriod req) in
      if bool_decide (err <> None)
      then Ret (Err (Errorf "invalid end_period"), w)
      else if time.After startPeriod endPeriod
      then Ret (Err range_error, w)
      else
        let filters : gmap string FilterValue := ∅ in
        let filters :=
          match models.req_UserID req with
          | Some u => <["user_id" := FUUID u]> filters
          | None => filters
          end in
        let filters :=
          match models.req_ServiceName req with
          | Some n => <["service_name" := FString n]> filters
          | None => filters
          end in
        let w := emit (CallList filters) w in
        match repository.List repo filters (db w) with
        | Err e =>
            Ret (Err e,
                 emit (LogError "Failed to get subscriptions for total cost") w)
        | Ok subscriptions =>
            let* totalCost :=
              totalCost_loop startPeriod endPeriod subscriptions 0 in
            Ret (Ok (models.mkTotalCostResponse totalCost),
                 emit (LogInfo "Total cost calculated") w)
        end.

Definition Update (id : models.UUID) (req : models.SubscriptionUpdate)
    (w : World DB) : exec (result models.Subscription * World DB) :=
  if match models.upd_StartDate req with
     | Some d => negb (isValidDateFormat d)
     | None => false
     end
  then Ret (Err (Errorf "start_date must be in MM-YYYY format"), w)
  else if match models.upd_EndDate req with
          | Some d => negb (String.eqb d "") && negb (isValidDateFormat d)
          | None => false
          end
  then Ret (Err (Errorf "end_date must be in MM-YYYY format"), w)
  else
    let w := emit (CallGetByID id) w in
    match repository.GetByID repo id (db w) with
    | Err e => Ret (Err e, w)
    | Ok existing =>
        let existing :=
          models.mkSubscription
            (models.ID existing)
            (default (models.ServiceName existing) (models.upd_ServiceName req))
            (default (models.Price existing) (models.upd_Price req))
            (default (models.UserID existing) (models.upd_UserID req))
            (default (models.StartDate existing) (models.upd_StartDate req))
            (match models.upd_EndDate req with
             | Some d => Some d
             | None => models.EndDate existing
             end)
            (models.CreatedAt existing)
            (now w) in
        let w := emit (CallUpdate existing) w in
        match repository.Update repo existing (db w) with
        | (db', Some e) =>
            Ret (Err e,
                 emit (LogError "Failed to update subscription")
                      (mkWorld db' (now w) (trace w)))
        | (db', None) =>
            Ret (Ok existing,
                 emit (LogInfo "Subscription updated")
                      (mkWorld db' (now w) (trace w)))
        end
    end.

Definition GetByID (id : models.UUID) (w : World DB)
  : exec (result models.Subscription * World DB) :=
  let w := emit (CallGetByID id) w in
  match repository.GetByID repo id (db w) with
  | Err err =>
      if errors_Is err ErrNoRows then Ret (Err (Errorf "not found"), w)
      else Ret (Err err, emit (LogError "Failed to get subscription") w)
  | Ok subscription => Ret (Ok subscription, w)
  end.

(** [List]; a nil and an empty slice are the same list here, so the final
    [if subscriptions == nil] changes nothing. *)
Definition List (userID : option models.UUID) (serviceName : option string)
    (w : World DB) : exec (result (list models.Subscription) * World DB) :=
  let filters : gmap string FilterValue := ∅ in
  let filters :=
    match userID with
    | Some u => <["user_id" := FUUID u]> filters
    | None => filters
    end in
  let filters :=
    match serviceName with
    | Some n => <["service_name" := FString n]> filters
    | None => filters
    end in
  let w := emit (CallList filters) w in
  match repository.List repo filters (db w) with
  | Err err => Ret (Err err, emit (LogError "Failed to list subscriptions") w)
  | Ok subscriptions => Ret (Ok subscriptions, w)
  end.

End Service.

(** What [uuid.New()] and the two calls of [time.Now()] give one [Create]. *)
Record Fresh : Type := mkFresh {
  fresh_ID : models.UUID;
  fresh_CreatedAt : time.Time;
  fresh_UpdatedAt : time.Time
}.

Section Writes.

Context {DB : Type} (repo : repository.CRUD DB).

(** The trace has no entry for a call of the repository's [Create] or
    [Delete]; the log line that follows either marks it. *)
Definition Create (req : models.SubscriptionCreate) (fresh : Fresh)
    (w : World DB) : exec (result models.Subscription * World DB) :=
  if negb (isValidDateFormat (models.new_StartDate req))
  then Ret (Err (Errorf "start_date must be in MM-YYYY format"), w)
  else if match models.new_EndDate req with
          | Some d => negb (isValidDateFormat d)
          | None => false
          end
  then Ret (Err (Errorf "end_date must be in MM-YYYY format"), w)
  else
    let subscription :=
      models.mkSubscription
        (fresh_ID fresh)
        (models.new_ServiceName req)
        (models.new_Price req)
        (models.new_UserID req)
        (models.new_StartDate req)
        (models.new_EndDate req)
        (fresh_CreatedAt fresh)
        (fresh_UpdatedAt fresh) in
    match repository.Create repo subscription (db w) with
    | (db', Some err) =>
        Ret (Err err,
             emit (LogError "Failed to create subscription")
                  (mkWorld db' (now w) (trace w)))
    | (db', None) =>
        Ret (Ok subscription,
             emit (LogInfo "Subscription created")
                  (mkWorld db' (now w) (trace w)))
    end.

Definition Delete (id : models.UUID) (w : World DB)
  : exec (option error * World DB) :=
  match repository.Delete repo id (db w) with
  | (db', Some err) =>
      Ret (Some err,
           emit (LogError "Failed to delete subscription")
                (mkWorld db' (now w) (trace w)))
  | (db', None) =>
      Ret (None,
           emit (LogInfo "Subscription deleted")
                (mkWorld db' (now w) (trace w)))
  end.

End Writes.

End service.

(** ** package handlers

    A handler reads its inputs from the [gin.Context] and answers with one
    call of [c.JSON] or [c.Status].  The inputs are arguments here: the
    path or query strings, and what [c.ShouldBindJSON] made of the body
    (the bound request or its error).  [uuid.Parse] is a parameter.  The
    service is the one [InitializeApp] wires in, on the same logger. *)

Module http.
Definition StatusOK : Z := 200.
Definition StatusCreated : Z := 201.
Definition StatusNoContent : Z := 204.
Definition StatusBadRequest : Z := 400.
Definition StatusNotFound : Z := 404.
Definition StatusInternalServerError : Z := 500.
End http.

Module handlers.

Inductive Body : Type :=
| ErrorBody (msg : string)                      (* gin.H{"error": msg} *)
| SubscriptionBody (subscription : models.Subscription)
| SubscriptionsBody (subscriptions : list models.Subscription)
| TotalCostBody (response : models.TotalCostResponse)
| NoBody.

Record Response : Type := mkResponse { status : Z; body : Body }.

Section Handler.

Context {DB : Type} (repo : repository.CRUD DB).
Context (uuid_Parse : string -> option models.UUID).

Definition CreateSubscription (bound : result models.SubscriptionCreate)
    (fresh : service.Fresh) (w : World DB) : exec (Response * World DB) :=
  match bound with
  | Err err =>
      Ret (mkResponse http.StatusBadRequest (ErrorBody (Error err)),
           emit (LogError "Invalid request body") w)
  | Ok req =>
      let* (r, w) := service.Create repo req fresh w in
      match r with
      | Err err =>
          Ret (mkResponse http.StatusBadRequest (ErrorBody (Error err)), w)
      | Ok subscription =>
          Ret (mkResponse http.StatusCreated (SubscriptionBody subscription),
               w)
      end
  end.

Definition GetSubscription (idStr : string) (w : World DB)
  : exec (Response * World DB) :=
  match uuid_Parse idStr with
  | None =>
      Ret (mkResponse http.StatusBadRequest
             (ErrorBody "Invalid subscription ID"),
           emit (LogError "Invalid subscription ID") w)
  | Some id =>
      let* (r, w) := service.GetByID (repository.reads repo) id w in
      match r with
      | Err err =>
          if errors_Is err ErrNoRows
          then Ret (mkResponse http.StatusNotFound
                      (ErrorBody "Subscription not found"), w)
          else Ret (mkResponse http.StatusInternalServerError
                      (ErrorBody "Failed to get subscription"), w)
      | Ok subscription =>
          Ret (mkResponse http.StatusOK (SubscriptionBody subscription), w)
      end
  end.

Definition ListSubscriptions (userIDStr serviceName : string) (w : World DB)
  : exec (Response * World DB) :=
  let listing (userID : option models.UUID) :=
    let svcName :=
      if negb (String.eqb serviceName "") then Some serviceName else None in
    let* (r, w) := service.List (repository.reads repo) userID svcName w in
    match r with
    | Err err =>
        Ret (mkResponse http.StatusInternalServerError
               (ErrorBody "Failed to list subscriptions"),
             emit (LogError "Failed to list subscriptions") w)
    | Ok subscriptions =>
        Ret (mkResponse http.StatusOK (SubscriptionsBody subscriptions), w)
    end in
  if negb (String.eqb userIDStr "") then
    match uuid_Parse userIDStr with
    | None =>
        Ret (mkResponse http.StatusBadRequest (ErrorBody "Invalid user_id"),
             emit (LogError "Invalid user_id") w)
    | Some parsed => listing (Some parsed)
    end
  else listing None.

Definition UpdateSubscription (idStr : string)
    (bound : result models.SubscriptionUpdate) (w : World DB)
  : exec (Response * World DB) :=
  match uuid_Parse idStr with
  | None =>
      Ret (mkResponse http.StatusBadRequest
             (ErrorBody "Invalid subscription ID"),
           emit (LogError "Invalid subscription ID") w)
  | Some id =>
      match bound with
      | Err err =>
          Ret (mkResponse http.StatusBadRequest (ErrorBody (Error err)),
               emit (LogError "Invalid request body") w)
      | Ok req =>
          let* (r, w) := service.Update (repository.reads repo) id req w in
          match r with
          | Err err =>
              Ret (mkResponse http.StatusBadRequest (ErrorBody (Error err)),
                   w)
          | Ok subscription =>
              Ret (mkResponse http.StatusOK (SubscriptionBody subscription),
                   w)
          end
      end
  end.

Definition DeleteSubscription (idStr : string) (w : World DB)
  : exec (Response * World DB) :=
  match uuid_Parse idStr with
  | None =>
      Ret (mkResponse http.StatusBadRequest
             (ErrorBody "Invalid subscription ID"),
           emit (LogError "Invalid subscription ID") w)
  | Some id =>
      let* (err, w) := service.Delete repo id w in
      match err with
      | Some _ =>
          Ret (mkResponse http.StatusInternalServerError
                 (ErrorBody "Failed to delete subscription"),
               emit (LogError "Failed to delete subscription") w)
      | None => Ret (mkResponse http.StatusNoContent NoBody, w)
      end
  end.

Definition GetTotalCost (bound : result models.TotalCostRequest)
    (w : World DB) : exec (Response * World DB) :=
  match bound with
  | Err err =>
      Ret (mkResponse http.StatusBadRequest (ErrorBody (Error err)),
           emit (LogError "Invalid request body") w)
  | Ok req =>
      let* (r, w) := service.GetTotalCost (repository.reads repo) req w in
      match r with
      | Err err =>
          Ret (mkResponse http.StatusBadRequest (ErrorBody (Error err)), w)
      | Ok response =>
          Ret (mkResponse http.StatusOK (TotalCostBody response), w)
      end
  end.

End Handler.

End handlers.

(** ** package app: the routes of [InitializeApp] *)

Module app.

(** A request the router dispatches, with what its handler reads of it. *)
Inductive Request : Type :=
| POST_subscriptions (bound : result models.SubscriptionCreate)
    (fresh : service.Fresh)
| GET_subscriptions (user_id service_name : string)
| GET_subscriptions_id (id : string)
| PUT_subscriptions_id (id : string)
    (bound : result models.SubscriptionUpdate)
| DELETE_subscriptions_id (id : string)
| POST_subscriptions_total_cost (bound : result models.TotalCostRequest).

Section Routes.

Context {DB : Type} (repo : repository.CRUD DB).
Context (uuid_Parse : string -> option models.UUID).

Definition ServeHTTP (r : Request) (w : World DB)
  : exec (handlers.Response * World DB) :=
  match r with
  | POST_subscriptions bound fresh =>
      handlers.CreateSubscription repo bound fresh w
  | GET_subscriptions user_id service_name =>
      handlers.ListSubscriptions repo uuid_Parse user_id service_name w
  | GET_subscriptions_id id => handlers.GetSubscription repo uuid_Parse id w
  | PUT_subscriptions_id id bound =>
      handlers.UpdateSubscription repo uuid_Parse id bound w
  | DELETE_subscriptions_id id =>
      handlers.DeleteSubscription repo uuid_Parse id w
  | POST_subscriptions_total_cost bound => handlers.GetTotalCost repo bound w
  end.

(** Requests served one after the other, each at its own reading of the
    clock, up to the first panic (which [gin.Recovery] would answer with
    500 before serving the next request). *)
Fixpoint serve (rs : list (time.Time * Request)) (w : World DB)
  : exec (list handlers.Response * World DB) :=
  match rs with
  | [] => Ret ([], w)
  | (t, r) :: rest =>
      let* (response, w) := ServeHTTP r (mkWorld (db w) t (trace w)) in
      let* (responses, w) := serve rest w in
      Ret (response :: responses, w)
  end.

End Routes.

End app.

(** ** The specification's vocabulary

    These definitions follow the words of the specification, not the code:
    the calendar month with its order, the textual format, the overlap
    count and the total. *)

Module Spec.

Record CalendarMonth : Type := mkMonth { year : Z; month : Z }.

Definition valid (c : CalendarMonth) : Prop :=
  1 <= month c <= 12 /\ 1900 <= year c <= 9999.

(** A precedes B iff A.year < B.year, or the years agree and
    A.month < B.month. *)
Definition precedes (a b : CalendarMonth) : Prop :=
  year a < year b \/ (year a = year b /\ month a < month b).

Definition precedesb (a b : CalendarMonth) : bool :=
  (year a <? year b) || ((year a =? year b) && (month a <? month b)).

(** [a <= b] in the total order. *)
Definition le (a b : CalendarMonth) : Prop := ~ precedes b a.

(** The later and the earlier of two months. *)
Definition later (a b : CalendarMonth) : CalendarMonth :=
  if precedesb a b then b else a.
Definition earlier (a b : CalendarMonth) : CalendarMonth :=
  if precedesb a b then a else b.

(** Inclusive count of months from [a] to [b]. *)
Definition span (a b : CalendarMonth) : Z :=
  (year b - year a) * 12 + (month b - month a) + 1.

Definition overlapMonths
    (windowStart windowEnd subStart subEnd : CalendarMonth) : Z :=
  let effectiveStart := later windowStart subStart in
  let effectiveEnd := earlier windowEnd subEnd in
  if precedesb effectiveEnd effectiveStart then 0
  else span effectiveStart effectiveEnd.

(** *** The textual form "MM-YYYY" *)

(** A decimal digit is one of the ten characters of "0123456789"; its
    value is its place among them. *)
Fixpoint place (c : ascii) (among : string) : option Z :=
  match among with
  | EmptyString => None
  | String d rest =>
      if Ascii.eqb c d then Some 0 else Z.succ <$> place c rest
  end.

Definition digit (c : ascii) : option Z := place c "0123456789".

(** The number written by the digits [s] after the digits already read
    as [n]; [None] if some byte is not a decimal digit. *)
Fixpoint digits_from (s : string) (n : Z) : option Z :=
  match s with
  | EmptyString => Some n
  | String c rest =>
      match digit c with
      | Some d => digits_from rest (n * 10 + d)
      | None => None
      end
  end.

Definition natural (s : string) : option Z :=
  match s with
  | EmptyString => None
  | _ => digits_from s 0
  end.

(** A decimal integer: an optional sign and at least one digit. *)
Definition integer (s : string) : option Z :=
  match s with
  | String "+" rest => natural rest
  | String "-" rest => Z.opp <$> natural rest
  | _ => natural s
  end.

Fixpoint free_of (sep : ascii) (s : string) : Prop :=
  match s with
  | EmptyString => True
  | String c rest => c <> sep /\ free_of sep rest
  end.

(** [text] splits on the separator into exactly the two components
    [p0] and [p1]. *)
Definition two_components (text p0 p1 : string) : Prop :=
  text = p0 +:+ String "-" p1 /\ free_of "-" p0 /\ free_of "-" p1.

(** [text] is the textual form of the valid month [c]. *)
Definition denotes (text : string) (c : CalendarMonth) : Prop :=
  exists p0 p1,
    two_components text p0 p1
    /\ integer p0 = Some (month c) /\ integer p1 = Some (year c)
    /\ valid c.

Definition well_formed (text : string) : Prop := exists c, denotes text c.

(** *** Records and the total *)

Inductive Termination : Type :=
| Closed (e : CalendarMonth)
| OpenEnded.

Record SubscriptionInterval : Type := mkInterval {
  price : Z;
  start : CalendarMonth;
  term : Termination
}.

Definition in_window (windowStart windowEnd c : CalendarMonth) : Prop :=
  le windowStart c /\ le c windowEnd.

Definition in_windowb (windowStart windowEnd c : CalendarMonth) : bool :=
  negb (precedesb c windowStart) && negb (precedesb windowEnd c).

Definition contribution (windowStart windowEnd : CalendarMonth)
    (r : SubscriptionInterval) : Z :=
  match term r with
  | OpenEnded =>
      if in_windowb windowStart windowEnd (start r) then price r else 0
  | Closed e =>
      price r * overlapMonths windowStart windowEnd (start r) e
  end.

Definition totalCost (windowStart windowEnd : CalendarMonth)
    (rs : list SubscriptionInterval) : Z :=
  foldr Z.add 0 (map (contribution windowStart windowEnd) rs).

End Spec.

(** ** Linking the two sides *)

(** The [time.Time] the service builds for a calendar month. *)
Definition toTime (c : Spec.CalendarMonth) : time.Time :=
  time.Date (Spec.year c) (Spec.month c) 1 0 0 0 0 time.UTC.

(** A stored record read as the specification's interval. *)
Definition reads_as (sub : models.Subscription)
    (r : Spec.SubscriptionInterval) : Prop :=
  models.Price sub = Spec.price r
  /\ Spec.denotes (models.StartDate sub) (Spec.start r)
  /\ match models.EndDate sub, Spec.term r with
     | None, Spec.OpenEnded => True
     | Some e, Spec.Closed c => Spec.denotes e c
     | _, _ => False
     end.

(** The filters [GetTotalCost] hands to [List] for a request. *)
Definition requested_filters (req : models.TotalCostRequest)
  : gmap string FilterValue :=
  let filters : gmap string FilterValue := ∅ in
  let filters :=
    match models.req_UserID req with
    | Some u => <["user_id" := FUUID u]> filters
    | None => filters
    end in
  match models.req_ServiceName req with
  | Some n => <["service_name" := FString n]> filters
  | None => filters
  end.

(** What [GetTotalCost] does once the window [startPeriod, endPeriod] has
    passed validation: list, aggregate, log. *)
Definition aggregation {DB} (repo : repository.SubscriptionRepository DB)
    (req : models.TotalCostRequest) (startPeriod endPeriod : time.Time)
    (w : World DB) : exec (result models.TotalCostResponse * World DB) :=
  let w := emit (CallList (requested_filters req)) w in
  match repository.List repo (requested_filters req) (db w) with
  | Err e =>
      Ret (Err e,
           emit (LogError "Failed to get subscriptions for total cost") w)
  | Ok subscriptions =>
      let* totalCost :=
        service.totalCost_loop startPeriod endPeriod subscriptions 0 in
      Ret (Ok (models.mkTotalCostResponse totalCost),
           emit (LogInfo "Total cost calculated") w)
  end.

(** [join sep ps]: the pieces [ps] with [sep] between them. *)
Fixpoint join (sep : ascii) (ps : list string) : string :=
  match ps with
  | [] => EmptyString
  | [p] => p
  | p :: ps' => p +:+ String sep (join sep ps')
  end.

(** Days from January 1 of year 1 to January 1 of year [y], by the
    400-, 100- and 4-year cycles [time.daysSinceEpoch] counts in. *)
Definition days_before_year (y : Z) : Z :=
  let x := y - 1 in
  let n400 := x / 400 in
  let x := x mod 400 in
  let n100 := x / 100 in
  let x := x mod 100 in
  let n4 := x / 4 in
  let x := x mod 4 in
  time.daysPer400Years * n400 + time.daysPer100Years * n100
  + time.daysPer4Years * n4 + 365 * x.

(** Day of the year (from 0) of the first of month [m] in year [y]. *)
Definition yday_of (y m : Z) : Z :=
  time.daysBefore_at (m - 1) + (if time.isLeap y && (3 <=? m) then 1 else 0).

(** Seconds from January 1 of year 1 to the first of the month [c]. *)
Definition secs_of (c : Spec.CalendarMonth) : Z :=
  (days_before_year (Spec.year c) + yday_of (Spec.year c) (Spec.month c))
  * time.secondsPerDay.

(** Months numbered consecutively. *)
Definition month_index (c : Spec.CalendarMonth) : Z :=
  Spec.year c * 12 + (Spec.month c - 1).

(** A record both of whose dates pass the validator. *)
Definition well_dated (sub : models.Subscription) : bool :=
  service.isValidDateFormat (models.StartDate sub)
  && match models.EndDate sub with
     | Some e => service.isValidDateFormat e
     | None => true
     end.

(** A state of the database all of whose rows are such records. *)
Definition well_dated_rows {DB : Type}
    (row : DB -> models.Subscription -> Prop) (db : DB) : Prop :=
  forall sub, row db sub -> well_dated sub = true.

(** The rows of the table. *)
Definition table_row (db : gmap models.UUID models.Subscription)
    (sub : models.Subscription) : Prop :=
  exists id, db !! id = Some sub.

(** A record each of whose dates has a separator, which is all
    [parsePeriod] needs to index its two parts. *)
Definition separated (sub : models.Subscription) : Prop :=
  ~ Spec.free_of "-" (models.StartDate sub)
  /\ forall e, models.EndDate sub = Some e -> ~ Spec.free_of "-" e.

(** The filters of [List_query] that are present with a value, in the
    order the query names them. *)
Definition present (filters : gmap string (option FilterValue))
  : list (string * FilterValue) :=
  omap (fun column => value ← filters !! column ≫= id; Some (column, value))
       ["user_id"; "service_name"].

(** The conditions on the given columns, with placeholders numbered
    from [n]. *)
Fixpoint conditions (n : Z) (columns : list string) : string :=
  match columns with
  | [] => EmptyString
  | column :: rest =>
      " AND " +:+ column +:+ " = $" +:+ pretty n +:+ conditions (n + 1) rest
  end.

(** A PUT whose body sets the end date to the empty string. *)
Definition clears_end_date (r : app.Request) : bool :=
  match r with
  | app.PUT_subscriptions_id _ (Ok req) =>
      bool_decide (models.upd_EndDate req = Some EmptyString)
  | _ => false
  end.

(** ** Sample data *)

Definition t0 : time.Time := time.mkTime 0 0.

Definition sub_of (id : N) (price : Z) (s : string) (e : option string)
  : models.Subscription :=
  models.mkSubscription id "svc" price 7%N s e t0 t0.

Definition world_of (subs : list models.Subscription)
  : World (gmap models.UUID models.Subscription) :=
  mkWorld (list_to_map (map (fun s => (models.ID s, s)) subs)) t0 [].

Definition window (s e : string) : models.TotalCostRequest :=
  models.mkTotalCostRequest None None s e.

Definition jan_2025 : Spec.CalendarMonth := Spec.mkMonth 2025 1.
Definition feb_2025 : Spec.CalendarMonth := Spec.mkMonth 2025 2.
Definition mar_2025 : Spec.CalendarMonth := Spec.mkMonth 2025 3.
Definition may_2025 : Spec.CalendarMonth := Spec.mkMonth 2025 5.
Definition jul_2025 : Spec.CalendarMonth := Spec.mkMonth 2025 7.
Definition dec_2025 : Spec.CalendarMonth := Spec.mkMonth 2025 12.
Definition jun_2024 : Spec.CalendarMonth := Spec.mkMonth 2024 6.

(** * Properties *)

(** ** Machine integers *)

(** Side conditions "this value fits the machine type". *)
Ltac fits :=
  unfold GoInt.is_int, GoInt.minInt, GoInt.maxInt, GoInt.maxUint64 in *; lia.

Lemma wrap_id z : GoInt.is_int z -> GoInt.wrap z = z.
Proof.
  unfold GoInt.is_int, GoInt.minInt, GoInt.maxInt, GoInt.wrap. intros H.
  rewrite Z.mod_small; lia.
Qed.

Lemma wrapU_id z : 0 <= z <= GoInt.maxUint64 -> GoInt.wrapU z = z.
Proof.
  unfold GoInt.maxUint64, GoInt.wrapU. intros H. rewrite Z.mod_small; lia.
Qed.

Lemma wrap_add_l a b : GoInt.wrap (GoInt.wrap a + b) = GoInt.wrap (a + b).
Proof.
  unfold GoInt.wrap. f_equal.
  replace ((a + 2 ^ 63) mod 2 ^ 64 - 2 ^ 63 + b + 2 ^ 63)
    with ((a + 2 ^ 63) mod 2 ^ 64 + b) by lia.
  rewrite Zplus_mod_idemp_l. f_equal. lia.
Qed.

Lemma wrap_add_r a b : GoInt.wrap (a + GoInt.wrap b) = GoInt.wrap (a + b).
Proof. rewrite Z.add_comm, wrap_add_l. f_equal. lia. Qed.

Lemma wrap_wrapU_add a b : GoInt.wrap (GoInt.wrapU a + b) = GoInt.wrap (a + b).
Proof.
  unfold GoInt.wrap, GoInt.wrapU. f_equal.
  rewrite <- Z.add_assoc, Zplus_mod_idemp_l. f_equal. lia.
Qed.

Lemma wrapU_wrap_add a b : GoInt.wrapU (GoInt.wrap a + b) = GoInt.wrapU (a + b).
Proof.
  unfold GoInt.wrap, GoInt.wrapU.
  replace ((a + 2 ^ 63) mod 2 ^ 64 - 2 ^ 63 + b)
    with ((a + 2 ^ 63) mod 2 ^ 64 + (b - 2 ^ 63)) by lia.
  rewrite Zplus_mod_idemp_l. f_equal. lia.
Qed.

Lemma wrapU_wrapU a : GoInt.wrapU (GoInt.wrapU a) = GoInt.wrapU a.
Proof. unfold GoInt.wrapU. apply Z.mod_mod. lia. Qed.

(** Drop the reductions that lose nothing, innermost first. *)
Ltac unwrap :=
  repeat match goal with
    | |- context [GoInt.wrapU ?z] =>
        lazymatch z with
        | context [GoInt.wrapU _] => fail
        | _ => rewrite (wrapU_id z) by fits
        end
    end.

Ltac unwrap_int :=
  repeat match goal with
    | |- context [GoInt.wrap ?z] =>
        lazymatch z with
        | context [GoInt.wrap _] => fail
        | _ => rewrite (wrap_id z)
                 by fits
        end
    end.

(** ** The calendar of package time

    On the valid range 01-1900 .. 12-9999, [time.Date] yields the count of
    seconds [secs_of] (none of its 64-bit steps loses anything), [Year] and
    [Month] give the month back, and the count grows with (year, month). *)

Ltac month_cases m Hm :=
  let Hc := fresh "Hc" in
  assert (Hc : m = 1 \/ m = 2 \/ m = 3 \/ m = 4 \/ m = 5 \/ m = 6 \/ m = 7
               \/ m = 8 \/ m = 9 \/ m = 10 \/ m = 11 \/ m = 12) by lia;
  clear Hm;
  repeat (destruct Hc as [Hc|Hc]; [subst m|]); [..|subst m].

Lemma norm_id hi lo base : 0 <= lo < base -> time.norm hi lo base = (hi, lo).
Proof.
  intros H. unfold time.norm.
  destruct (Z.ltb_spec lo 0); [lia|].
  destruct (Z.leb_spec base lo); [lia|]. reflexivity.
Qed.

Lemma subU_mulU_div a k :
  0 <= a <= GoInt.maxUint64 -> 0 < k ->
  GoInt.subU a (GoInt.mulU k (a / k)) = a mod k.
Proof.
  intros Ha Hk. unfold GoInt.subU, GoInt.mulU.
  assert (0 <= k * (a / k) <= a).
  { split; [apply Z.mul_nonneg_nonneg; [lia | apply Z.div_pos; lia]
           | apply Z.mul_div_le; lia]. }
  rewrite (wrapU_id (k * _)) by lia.
  rewrite wrapU_id by lia. rewrite Z.mod_eq by lia. reflexivity.
Qed.

Lemma div_unique_small a k q r : 0 <= r < k -> a = k * q + r -> a / k = q.
Proof.
  intros Hr ->. symmetry. apply (Z.div_unique _ _ q r); [lia | reflexivity].
Qed.

(** The absolute epoch lies 730692556 cycles of 400 years before year 1. *)
Lemma daysSinceEpoch_valid y :
  1900 <= y <= 9999 ->
  time.daysSinceEpoch y
  = days_before_year y + time.daysPer400Years * 730692556.
Proof.
  intros Hy.
  unfold time.daysSinceEpoch, days_before_year, time.absoluteZeroYear.
  rewrite (wrapU_id (y - _)) by fits.
  replace (y - -292277022399) with ((y - 1) + 730692556 * 400) by lia.
  set (x := y - 1). assert (Hx : 1899 <= x <= 9998) by (unfold x; lia).
  rewrite subU_mulU_div by fits.
  rewrite Z.div_add, Z.mod_add by lia.
  pose proof (Z.mod_pos_bound x 400 ltac:(lia)) as H400.
  assert (Hq : 0 <= x / 400 <= 24) by (Z.div_mod_to_equations; lia).
  generalize dependent (x / 400). generalize dependent (x mod 400).
  intros x1 H400 q Hq.
  rewrite subU_mulU_div by fits.
  pose proof (Z.mod_pos_bound x1 100 ltac:(lia)) as H100.
  assert (Hq1 : 0 <= x1 / 100 <= 3) by (Z.div_mod_to_equations; lia).
  generalize dependent (x1 / 100). generalize dependent (x1 mod 100).
  intros x2 H100 q1 Hq1.
  rewrite subU_mulU_div by fits.
  pose proof (Z.mod_pos_bound x2 4 ltac:(lia)) as H4.
  assert (Hq2 : 0 <= x2 / 4 <= 24) by (Z.div_mod_to_equations; lia).
  generalize dependent (x2 / 4). generalize dependent (x2 mod 4).
  intros x3 H4 q2 Hq2.
  unfold GoInt.addU, GoInt.mulU, time.daysPer400Years, time.daysPer100Years,
    time.daysPer4Years.
  unwrap. lia.
Qed.

Lemma days_before_year_bounds y :
  1900 <= y <= 9999 -> 0 <= days_before_year y <= 3652059.
Proof.
  intros Hy. unfold days_before_year, time.daysPer400Years,
    time.daysPer100Years, time.daysPer4Years.
  Z.div_mod_to_equations. lia.
Qed.

Lemma daysBefore_at_bounds m :
  1 <= m <= 12 -> 0 <= time.daysBefore_at (m - 1) <= 334.
Proof. intros Hm. month_cases m Hm; vm_compute; split; discriminate. Qed.

(** The first of a month is at most day 335 of its year, and the firsts of
    consecutive months are at least 24 days apart. *)
Lemma yday_of_window y m :
  1 <= m <= 12 -> 30 * (m - 1) - 1 <= yday_of y m <= 30 * (m - 1) + 5.
Proof.
  intros Hm. unfold yday_of. destruct (time.isLeap y);
    month_cases m Hm; vm_compute; split; discriminate.
Qed.

Lemma yday_of_bounds y m : 1 <= m <= 12 -> 0 <= yday_of y m <= 335.
Proof.
  intros Hm. pose proof (yday_of_window y m Hm) as Hw.
  split; [|lia]. unfold yday_of.
  pose proof (daysBefore_at_bounds m Hm).
  destruct (time.isLeap y && (3 <=? m)); lia.
Qed.

Lemma toTime_valid c :
  Spec.valid c -> toTime c = time.mkTime (secs_of c) 0.
Proof.
  intros [Hm Hy]. unfold toTime, time.Date.
  replace (GoInt.sub (Spec.month c) 1) with (Spec.month c - 1)
    by (unfold GoInt.sub; rewrite wrap_id; [lia | fits]).
  rewrite norm_id by lia.
  replace (GoInt.add (Spec.month c - 1) 1) with (Spec.month c)
    by (unfold GoInt.add; rewrite wrap_id; [lia | fits]).
  change (time.norm 0 0 1000000000) with (0, 0).
  change (time.norm 0 0 60) with (0, 0).
  change (time.norm 1 0 24) with (1, 0).
  cbv beta iota zeta.
  change (GoInt.wrapU (GoInt.sub 1 1)) with 0.
  change (GoInt.wrapU
            (GoInt.add
               (GoInt.add (GoInt.mul 0 time.secondsPerHour)
                          (GoInt.mul 0 time.secondsPerMinute)) 0)) with 0.
  rewrite daysSinceEpoch_valid by lia.
  f_equal.
  pose proof (days_before_year_bounds (Spec.year c) Hy) as Hd.
  pose proof (yday_of_bounds (Spec.year c) (Spec.month c) Hm) as Hyd.
  pose proof (daysBefore_at_bounds (Spec.month c) Hm) as Hdb.
  unfold secs_of. unfold yday_of in *.
  set (db := time.daysBefore_at (Spec.month c - 1)) in *.
  set (D := days_before_year (Spec.year c)) in *.
  set (K := time.daysPer400Years * 730692556).
  assert (HK : K = 146097 * 730692556) by reflexivity.
  unfold time.March.
  set (leap := time.isLeap (Spec.year c) && (3 <=? Spec.month c)) in *.
  assert (Hadj :
    (if leap then GoInt.addU (GoInt.addU (D + K) (GoInt.wrapU db)) 1
     else GoInt.addU (D + K) (GoInt.wrapU db))
    = D + (db + (if leap then 1 else 0)) + K).
  { unfold GoInt.addU. revert Hyd.
    destruct leap; intros Hyd; unwrap; lia. }
  rewrite Hadj. clear Hadj.
  set (yd := db + _) in *.
  unfold GoInt.addU, GoInt.mulU, GoInt.add.
  rewrite !Z.add_0_r.
  rewrite (wrapU_id (D + _ + _)) by fits.
  rewrite wrapU_wrapU.
  rewrite wrap_add_l, <- Z.add_assoc, wrap_add_l, wrap_wrapU_add.
  rewrite wrap_id;
    unfold time.absoluteToInternal, time.internalToUnix, time.unixToInternal,
      time.secondsPerDay, time.secondsPerHour, time.secondsPerMinute;
    [lia | fits].
Qed.

Lemma abs_valid c :
  Spec.valid c ->
  time.abs (time.mkTime (secs_of c) 0)
  = (days_before_year (Spec.year c) + yday_of (Spec.year c) (Spec.month c)
     + time.daysPer400Years * 730692556) * time.secondsPerDay.
Proof.
  intros [Hm Hy]. unfold time.abs, GoInt.add, secs_of. cbn [time.ext].
  pose proof (days_before_year_bounds _ Hy) as Hd.
  pose proof (yday_of_bounds (Spec.year c) _ Hm) as Hyd.
  rewrite wrapU_wrap_add.
  rewrite wrapU_id;
    unfold time.internalToUnix, time.unixToInternal, time.internalToAbsolute,
      time.absoluteToInternal, time.daysPer400Years, time.secondsPerDay,
      time.secondsPerHour, time.secondsPerMinute; [lia | fits].
Qed.

(** [absYearDay] undoes the day count: the cycles are peeled off in the
    order they were added, and the first of a month never falls on the last
    day of a cycle, where [n - n>>2] corrects the quotient. *)
Lemma absYearDay_valid y yd :
  1900 <= y <= 9999 -> 0 <= yd <= 335 ->
  time.absYearDay
    ((days_before_year y + yd + time.daysPer400Years * 730692556)
     * time.secondsPerDay) = (y, yd).
Proof.
  intros Hy Hyd. unfold time.absYearDay.
  rewrite Z.div_mul by discriminate.
  unfold days_before_year.
  set (x := y - 1). assert (Hx : 1899 <= x <= 9998) by (unfold x; lia).
  assert (Ex : x = 400 * (x / 400) + 100 * (x mod 400 / 100)
                   + 4 * (x mod 400 mod 100 / 4) + x mod 400 mod 100 mod 4)
    by (Z.div_mod_to_equations; lia).
  assert (H400 : 0 <= x / 400 <= 24) by (Z.div_mod_to_equations; lia).
  assert (H100 : 0 <= x mod 400 / 100 <= 3) by (Z.div_mod_to_equations; lia).
  assert (H4 : 0 <= x mod 400 mod 100 / 4 <= 24)
    by (Z.div_mod_to_equations; lia).
  assert (H1 : 0 <= x mod 400 mod 100 mod 4 <= 3)
    by (Z.div_mod_to_equations; lia).
  revert Ex H400 H100 H4 H1.
  generalize (x / 400) (x mod 400 / 100) (x mod 400 mod 100 / 4)
    (x mod 400 mod 100 mod 4).
  intros a b c r Ex Ha Hb Hc Hr.
  unfold time.daysPer400Years, time.daysPer100Years, time.daysPer4Years.
  change (365 * 400 + 97) with 146097.
  change (365 * 100 + 24) with 36524.
  change (365 * 4 + 1) with 1461.
  set (A := a + 730692556).
  (* the 400-year cycles *)
  rewrite (div_unique_small _ 146097 A (36524 * b + 1461 * c + 365 * r + yd))
    by (unfold A; lia).
  unfold GoInt.subU, GoInt.mulU, GoInt.addU.
  rewrite (wrapU_id (400 * A)), (wrapU_id (146097 * A)) by (unfold A; fits).
  replace (146097 * a + 36524 * b + 1461 * c + 365 * r + yd
           + 146097 * 730692556 - 146097 * A)
    with (36524 * b + 1461 * c + 365 * r + yd) by (unfold A; lia).
  rewrite (wrapU_id (36524 * b + _ + _ + _)) by fits.
  (* the centuries *)
  rewrite (div_unique_small _ 36524 b (1461 * c + 365 * r + yd)) by lia.
  rewrite Z.shiftr_div_pow2 by lia.
  replace (b / 2 ^ 2) with 0 by (symmetry; apply Z.div_small; lia).
  rewrite Z.sub_0_r, (wrapU_id b) by fits.
  rewrite (wrapU_id (100 * b)), (wrapU_id (36524 * b)) by fits.
  replace (36524 * b + 1461 * c + 365 * r + yd - 36524 * b)
    with (1461 * c + 365 * r + yd) by lia.
  rewrite (wrapU_id (1461 * c + _ + _)) by fits.
  (* the 4-year cycles *)
  rewrite (div_unique_small _ 1461 c (365 * r + yd)) by lia.
  rewrite (wrapU_id (4 * c)), (wrapU_id (1461 * c)) by fits.
  replace (1461 * c + 365 * r + yd - 1461 * c) with (365 * r + yd) by lia.
  rewrite (wrapU_id (365 * r + yd)) by fits.
  (* the years of the cycle *)
  rewrite (div_unique_small _ 365 r yd) by lia.
  rewrite Z.shiftr_div_pow2 by lia.
  replace (r / 2 ^ 2) with 0 by (symmetry; apply Z.div_small; lia).
  rewrite Z.sub_0_r, (wrapU_id r) by fits.
  rewrite (wrapU_id (365 * r)) by fits.
  replace (365 * r + yd - 365 * r) with yd by lia.
  rewrite (wrapU_id yd) by fits.
  rewrite (wrapU_id (400 * A + 100 * b)) by (unfold A; fits).
  rewrite (wrapU_id (400 * A + 100 * b + 4 * c)) by (unfold A; fits).
  rewrite (wrapU_id (400 * A + 100 * b + 4 * c + r)) by (unfold A; fits).
  unfold GoInt.add. rewrite wrap_add_l.
  rewrite !wrap_id by (unfold A, time.absoluteZeroYear; fits).
  f_equal. unfold A, time.absoluteZeroYear. lia.
Qed.

(** [Year] and [Month] give back the month a time was built from. *)
Lemma toTime_Year c : Spec.valid c -> time.Year (toTime c) = Spec.year c.
Proof.
  intros Hc. rewrite toTime_valid by exact Hc.
  unfold time.Year, time.date, time.absDate.
  rewrite abs_valid by exact Hc. destruct Hc as [Hm Hy].
  rewrite absYearDay_valid by (auto using yday_of_bounds).
  reflexivity.
Qed.

Lemma toTime_Month c : Spec.valid c -> time.Month (toTime c) = Spec.month c.
Proof.
  intros Hc. rewrite toTime_valid by exact Hc.
  unfold time.Month, time.date, time.absDate.
  rewrite abs_valid by exact Hc. destruct Hc as [Hm Hy].
  rewrite absYearDay_valid by (auto using yday_of_bounds).
  unfold yday_of. destruct c as [y m]; cbn [Spec.year Spec.month] in *.
  destruct (time.isLeap y); month_cases m Hm; reflexivity.
Qed.

Lemma days_before_year_succ y :
  1900 <= y < 9999 -> days_before_year y + 365 <= days_before_year (y + 1).
Proof.
  intros Hy. unfold days_before_year, time.daysPer400Years,
    time.daysPer100Years, time.daysPer4Years.
  replace (y + 1 - 1) with (y - 1 + 1) by lia.
  set (x := y - 1).
  Z.div_mod_to_equations. lia.
Qed.

Lemma days_before_year_lt y1 y2 :
  1900 <= y1 -> y1 < y2 -> y2 <= 9999 ->
  days_before_year y1 + 365 <= days_before_year y2.
Proof.
  intros H1 Hlt H2.
  replace y2 with (y1 + 1 + Z.of_nat (Z.to_nat (y2 - y1 - 1))) in * by lia.
  induction (Z.to_nat (y2 - y1 - 1)) as [|n IH].
  - rewrite Z.add_0_r. apply days_before_year_succ. lia.
  - pose proof (days_before_year_succ (y1 + 1 + Z.of_nat n) ltac:(lia)) as Hs.
    replace (y1 + 1 + Z.of_nat (S n)) with (y1 + 1 + Z.of_nat n + 1) by lia.
    assert (days_before_year y1 + 365
            <= days_before_year (y1 + 1 + Z.of_nat n)) by (apply IH; lia).
    lia.
Qed.

Lemma secs_of_lt a b :
  Spec.valid a -> Spec.valid b ->
  Spec.precedes a b -> secs_of a < secs_of b.
Proof.
  intros [Hma Hya] [Hmb Hyb] Hp. unfold secs_of, time.secondsPerDay,
    time.secondsPerHour, time.secondsPerMinute.
  pose proof (yday_of_window (Spec.year a) _ Hma).
  pose proof (yday_of_window (Spec.year b) _ Hmb).
  destruct Hp as [Hlt | [Heq Hlt]].
  - pose proof (days_before_year_lt _ _ (proj1 Hya) Hlt (proj2 Hyb)). lia.
  - rewrite Heq in *. lia.
Qed.

Lemma precedes_trichotomy a b :
  Spec.precedes a b \/ a = b \/ Spec.precedes b a.
Proof.
  destruct a as [ya ma], b as [yb mb]. unfold Spec.precedes. simpl.
  destruct (Z.lt_trichotomy ya yb) as [?|[->|?]]; [lia| |lia].
  destruct (Z.lt_trichotomy ma mb) as [?|[->|?]]; [lia| |lia]. auto.
Qed.

Lemma precedes_asym a b : Spec.precedes a b -> ~ Spec.precedes b a.
Proof. unfold Spec.precedes. lia. Qed.

Lemma precedesb_spec a b : Spec.precedesb a b = true <-> Spec.precedes a b.
Proof. unfold Spec.precedesb, Spec.precedes. lia. Qed.

Lemma secs_of_lt_iff a b :
  Spec.valid a -> Spec.valid b ->
  (secs_of a < secs_of b <-> Spec.precedes a b).
Proof.
  intros Ha Hb. split; [|apply secs_of_lt; assumption].
  intros Hlt. destruct (precedes_trichotomy a b) as [H|[->|H]]; [exact H|lia|].
  pose proof (secs_of_lt _ _ Hb Ha H). lia.
Qed.

(** [After] and [Before] on the times of valid months are the order on
    months. *)
Lemma toTime_After a b :
  Spec.valid a -> Spec.valid b ->
  time.After (toTime a) (toTime b) = Spec.precedesb b a.
Proof.
  intros Ha Hb. rewrite !toTime_valid by assumption.
  unfold time.After. cbn [time.ext time.nsec].
  pose proof (secs_of_lt_iff b a Hb Ha) as H.
  rewrite <- precedesb_spec in H.
  destruct (Spec.precedesb b a); lia.
Qed.

Lemma toTime_Before a b :
  Spec.valid a -> Spec.valid b ->
  time.Before (toTime a) (toTime b) = Spec.precedesb a b.
Proof.
  intros Ha Hb. rewrite !toTime_valid by assumption.
  unfold time.Before. cbn [time.ext time.nsec].
  pose proof (secs_of_lt_iff a b Ha Hb) as H.
  rewrite <- precedesb_spec in H.
  destruct (Spec.precedesb a b); lia.
Qed.

(** ** Splitting *)

Lemma Split_nonempty s sep : strings.Split s sep <> [].
Proof.
  destruct s as [|c s]; simpl; [discriminate|].
  destruct (Ascii.eqb c sep); [discriminate|].
  destruct (strings.Split s sep); discriminate.
Qed.

Lemma Split_join s sep : join sep (strings.Split s sep) = s.
Proof.
  induction s as [|c s IH]; simpl; [reflexivity|].
  destruct (Ascii.eqb_spec c sep) as [->|Hne].
  - pose proof (Split_nonempty s sep).
    change (join sep (EmptyString :: strings.Split s sep))
      with (match strings.Split s sep with
            | [] => EmptyString
            | _ :: _ => String sep (join sep (strings.Split s sep))
            end).
    destruct (strings.Split s sep); [contradiction|]. rewrite IH. reflexivity.
  - pose proof (Split_nonempty s sep).
    destruct (strings.Split s sep) as [|p ps]; [contradiction|].
    destruct ps; simpl in *; rewrite <- IH; reflexivity.
Qed.

Lemma Split_free s sep : Forall (Spec.free_of sep) (strings.Split s sep).
Proof.
  induction s as [|c s IH]; simpl.
  - constructor; [exact I | constructor].
  - destruct (Ascii.eqb_spec c sep) as [->|Hne].
    + constructor; [exact I | exact IH].
    + destruct (strings.Split s sep) as [|p ps].
      * constructor; [simpl; auto | constructor].
      * inversion IH; subst. constructor; [simpl; auto | assumption].
Qed.

Lemma Split_free_one s sep : Spec.free_of sep s -> strings.Split s sep = [s].
Proof.
  induction s as [|c s IH]; simpl; [reflexivity|]. intros [Hne Hs].
  destruct (Ascii.eqb_spec c sep); [contradiction|].
  rewrite IH by exact Hs. reflexivity.
Qed.

Lemma Split_app p rest sep :
  Spec.free_of sep p ->
  strings.Split (p +:+ String sep rest) sep = p :: strings.Split rest sep.
Proof.
  induction p as [|c p IH]; simpl.
  - intros _. rewrite Ascii.eqb_refl. reflexivity.
  - intros [Hne Hp]. destruct (Ascii.eqb_spec c sep); [contradiction|].
    rewrite IH by exact Hp. reflexivity.
Qed.

(** Splitting on "-" gives exactly two pieces iff the text is two
    separator-free pieces around one separator. *)
Lemma Split_two text p0 p1 :
  strings.Split text "-" = [p0; p1] <-> Spec.two_components text p0 p1.
Proof.
  split.
  - intros H. pose proof (Split_join text "-") as Hj.
    pose proof (Split_free text "-") as Hf. rewrite H in Hj, Hf.
    split; [symmetry; exact Hj |].
    inversion Hf as [|? ? Hp0 Hf']. inversion Hf' as [|? ? Hp1 _].
    split; assumption.
  - intros (-> & H0 & H1). rewrite Split_app by exact H0.
    rewrite Split_free_one by exact H1. reflexivity.
Qed.

(** ** Decimal integers *)

Lemma byte_val_range c : 0 <= strconv.byte_val c < 256.
Proof.
  unfold strconv.byte_val. pose proof (N_ascii_bounded c). lia.
Qed.

Lemma digit_byte c :
  Spec.digit c
  = if (48 <=? strconv.byte_val c) && (strconv.byte_val c <=? 57)
    then Some (strconv.byte_val c - 48) else None.
Proof. destruct c as [[] [] [] [] [] [] [] []]; reflexivity. Qed.

Lemma integer_sign c rest :
  Spec.integer (String c rest)
  = if Ascii.eqb c "+" then Spec.natural rest
    else if Ascii.eqb c "-" then Z.opp <$> Spec.natural rest
    else Spec.natural (String c rest).
Proof. destruct c as [[] [] [] [] [] [] [] []]; reflexivity. Qed.

Lemma digit_range c d : Spec.digit c = Some d -> 0 <= d <= 9.
Proof.
  rewrite digit_byte.
  destruct (Z.leb_spec 48 (strconv.byte_val c)),
    (Z.leb_spec (strconv.byte_val c) 57); simpl; intros [= <-]; lia.
Qed.

Lemma digits_from_ge s n v : 0 <= n -> Spec.digits_from s n = Some v -> n <= v.
Proof.
  revert n. induction s as [|c s IH]; simpl; intros n Hn H.
  - injection H as <-. lia.
  - destruct (Spec.digit c) as [d|] eqn:Ed; [|discriminate].
    apply digit_range in Ed. apply IH in H; lia.
Qed.

Lemma digits_from_lt s n v :
  0 <= n -> Spec.digits_from s n = Some v ->
  v < (n + 1) * 10 ^ Z.of_nat (String.length s).
Proof.
  revert n. induction s as [|c s IH]; intros n Hn H.
  - simpl in *. injection H as <-. lia.
  - cbn [Spec.digits_from] in H.
    destruct (Spec.digit c) as [d|] eqn:Ed; [|discriminate].
    apply digit_range in Ed. apply IH in H; [|lia].
    cbn [String.length]. rewrite Nat2Z.inj_succ, Z.pow_succ_r by lia.
    assert (0 < 10 ^ Z.of_nat (String.length s))
      by (apply Z.pow_pos_nonneg; lia).
    nia.
Qed.

Lemma parseUint_loop_cons ch rest n :
  0 <= n <= GoInt.maxUint64 ->
  strconv.parseUint_loop (String ch rest) n
  = match Spec.digit ch with
    | None => (0, Some strconv.ErrSyntax)
    | Some d =>
        if (strconv.cutoff10 <=? n) || (GoInt.maxUint64 <? n * 10 + d)
        then (GoInt.maxUint64, Some strconv.ErrRange)
        else strconv.parseUint_loop rest (n * 10 + d)
    end.
Proof.
  intros Hn. cbn [strconv.parseUint_loop]. rewrite digit_byte.
  pose proof (byte_val_range ch) as Hc.
  set (c := strconv.byte_val ch) in *.
  destruct (Z.leb_spec 48 c) as [H48|H48], (Z.leb_spec c 57) as [H57|H57];
    cbn [andb].
  - unfold strconv.byte_sub. rewrite (Z.mod_small (c - 48)) by lia.
    destruct (Z.leb_spec 10 (c - 48)); [lia|].
    unfold strconv.cutoff10, GoInt.maxUint64 in *.
    change ((2 ^ 64 - 1) / 10 + 1) with 1844674407370955162.
    destruct (Z.leb_spec 1844674407370955162 n); [reflexivity|].
    cbn [orb]. unfold GoInt.mulU, GoInt.addU.
    rewrite (wrapU_id (n * 10)) by fits.
    destruct (Z.ltb_spec (2 ^ 64 - 1) (n * 10 + (c - 48))) as [Hov|Hov].
    + unfold GoInt.wrapU.
      replace ((n * 10 + (c - 48)) mod 2 ^ 64) with (n * 10 + (c - 48) - 2 ^ 64)
        by (apply Z.mod_unique with 1; lia).
      destruct (Z.ltb_spec (n * 10 + (c - 48) - 2 ^ 64) (n * 10));
        [reflexivity|lia].
    + rewrite wrapU_id by fits.
      destruct (Z.ltb_spec (n * 10 + (c - 48)) (n * 10)); [lia|].
      destruct (Z.ltb_spec (2 ^ 64 - 1) (n * 10 + (c - 48))); [lia|].
      reflexivity.
  - set (l := strconv.lower c).
    destruct (Z.leb_spec 97 l), (Z.leb_spec l 122); cbn [andb]; try reflexivity.
    unfold strconv.byte_add, strconv.byte_sub.
    rewrite (Z.mod_small (l - 97)) by lia. rewrite Z.mod_small by lia.
    destruct (Z.leb_spec 10 (l - 97 + 10)); [reflexivity|lia].
  - set (l := strconv.lower c).
    destruct (Z.leb_spec 97 l), (Z.leb_spec l 122); cbn [andb]; try reflexivity.
    unfold strconv.byte_add, strconv.byte_sub.
    rewrite (Z.mod_small (l - 97)) by lia. rewrite Z.mod_small by lia.
    destruct (Z.leb_spec 10 (l - 97 + 10)); [reflexivity|lia].
  - lia.
Qed.

Lemma parseUint_loop_range s n v :
  0 <= n <= GoInt.maxUint64 ->
  strconv.parseUint_loop s n = (v, Some strconv.ErrRange) ->
  v = GoInt.maxUint64.
Proof.
  revert n. induction s as [|ch s IH]; intros n Hn H.
  - discriminate.
  - rewrite parseUint_loop_cons in H by exact Hn.
    destruct (Spec.digit ch) as [d|] eqn:Ed; [|discriminate].
    apply digit_range in Ed.
    destruct (Z.leb_spec strconv.cutoff10 n); cbn [orb] in H; [congruence|].
    destruct (Z.ltb_spec GoInt.maxUint64 (n * 10 + d)); [congruence|].
    apply IH in H; [exact H | lia].
Qed.

(** [(v', None) = (v, None) <-> Some v' = Some v /\ bound], and the same
    with no value on either side. *)
Ltac same_value :=
  split; [intros [= <-]; split; [reflexivity|lia]
         | intros [[= <-] _]; reflexivity].
Ltac no_value := split; [discriminate | intros [? _]; discriminate].

Lemma parseUint_loop_ok s n v :
  0 <= n <= GoInt.maxUint64 ->
  (strconv.parseUint_loop s n = (v, None)
   <-> Spec.digits_from s n = Some v /\ v <= GoInt.maxUint64).
Proof.
  revert n. induction s as [|ch s IH]; intros n Hn.
  - simpl. same_value.
  - rewrite parseUint_loop_cons by exact Hn. cbn [Spec.digits_from].
    destruct (Spec.digit ch) as [d|] eqn:Ed; [|no_value].
    apply digit_range in Ed.
    destruct (Z.leb_spec strconv.cutoff10 n) as [Hc|Hc]; cbn [orb].
    + split; [discriminate|]. intros [H Hv].
      apply digits_from_ge in H; [|lia].
      unfold strconv.cutoff10, GoInt.maxUint64 in *.
      change ((2 ^ 64 - 1) / 10 + 1) with 1844674407370955162 in Hc. lia.
    + destruct (Z.ltb_spec GoInt.maxUint64 (n * 10 + d)) as [Hov|Hov].
      * split; [discriminate|]. intros [H Hv].
        apply digits_from_ge in H; lia.
      * apply IH. lia.
Qed.

Lemma natural_nonneg s v : Spec.natural s = Some v -> 0 <= v.
Proof.
  destruct s; [discriminate|]. unfold Spec.natural.
  intros H. apply digits_from_ge in H; lia.
Qed.

Lemma ParseUint10_ok s v :
  strconv.ParseUint10 s = (v, None)
  <-> Spec.natural s = Some v /\ v <= GoInt.maxUint64.
Proof.
  destruct s as [|c s].
  - simpl. no_value.
  - unfold strconv.ParseUint10, Spec.natural.
    apply parseUint_loop_ok. unfold GoInt.maxUint64. lia.
Qed.

Lemma ParseUint10_range s v :
  strconv.ParseUint10 s = (v, Some strconv.ErrRange) -> v = GoInt.maxUint64.
Proof.
  destruct s as [|c s]; [discriminate|]. unfold strconv.ParseUint10.
  apply parseUint_loop_range. unfold GoInt.maxUint64. lia.
Qed.

(** What [ParseInt] makes of the unsigned part [s1] read after the sign. *)
Lemma ParseInt10_signed (neg : bool) s1 v :
  (let '(un, err) := strconv.ParseUint10 s1 in
   match err with
   | Some strconv.ErrSyntax => (0, Some strconv.ErrSyntax)
   | _ =>
       let cutoff := 2 ^ 63 in
       if negb neg && (cutoff <=? un) then (cutoff - 1, Some strconv.ErrRange)
       else if neg && (cutoff <? un) then (- cutoff, Some strconv.ErrRange)
       else let n := GoInt.wrap un in (if neg then GoInt.neg n else n, None)
   end) = (v, None)
  <-> (if neg then Z.opp <$> Spec.natural s1 else Spec.natural s1) = Some v
      /\ GoInt.is_int v.
Proof.
  destruct (strconv.ParseUint10 s1) as [un err] eqn:E.
  assert (Hno : err <> None ->
                forall u, Spec.natural s1 = Some u ->
                          u <= GoInt.maxUint64 -> False).
  { intros Herr u Hu Hle.
    assert (strconv.ParseUint10 s1 = (u, None)) by (apply ParseUint10_ok; auto).
    congruence. }
  unfold GoInt.is_int, GoInt.minInt, GoInt.maxInt, GoInt.maxUint64 in *.
  destruct err as [[|]|].
  - split; [discriminate|]. intros [H Hv]. exfalso.
    destruct neg;
      [destruct (Spec.natural s1) as [u|] eqn:Eu; [|discriminate];
       injection H as <-;
       apply (Hno ltac:(discriminate) u); [reflexivity|lia]
      | apply (Hno ltac:(discriminate) v); [exact H | lia]].
  - apply ParseUint10_range in E. subst un. unfold GoInt.maxUint64.
    cbv zeta. 
    assert (Hr : (if negb neg && (2 ^ 63 <=? 2 ^ 64 - 1)
                 then (2 ^ 63 - 1, Some strconv.ErrRange)
                 else if neg && (2 ^ 63 <? 2 ^ 64 - 1)
                      then (- 2 ^ 63, Some strconv.ErrRange)
                      else (if neg then GoInt.neg (GoInt.wrap (2 ^ 64 - 1))
                            else GoInt.wrap (2 ^ 64 - 1), None))
                 <> (v, None)) by (destruct neg; discriminate).
    split; [intros H; contradiction|]. intros [H Hv]. exfalso.
    destruct neg;
      [destruct (Spec.natural s1) as [u|] eqn:Eu; [|discriminate];
       injection H as <-;
       apply (Hno ltac:(discriminate) u); [reflexivity|lia]
      | apply (Hno ltac:(discriminate) v); [exact H | lia]].
  - apply ParseUint10_ok in E as [E Hle]. rewrite E.
    pose proof (natural_nonneg _ _ E) as Hge. cbv zeta.
    unfold GoInt.maxUint64 in Hle.
    destruct neg; cbn [negb andb fmap option_fmap option_map].
    + destruct (Z.ltb_spec (2 ^ 63) un) as [Hc|Hc].
      * split; [discriminate|]. intros [[= <-] Hv]. lia.
      * assert (GoInt.neg (GoInt.wrap un) = - un) as ->.
        { unfold GoInt.neg. destruct (Z.eq_dec un (2 ^ 63)) as [->|Hne];
            [reflexivity|].
          rewrite (wrap_id un) by fits.
          apply wrap_id. fits. }
        same_value.
    + destruct (Z.leb_spec (2 ^ 63) un) as [Hc|Hc].
      * split; [discriminate|]. intros [[= <-] Hv]. lia.
      * rewrite wrap_id by fits.
        same_value.
Qed.

Lemma ParseInt10_spec s v :
  strconv.ParseInt10 s = (v, None)
  <-> Spec.integer s = Some v /\ GoInt.is_int v.
Proof.
  destruct s as [|c0 rest].
  - simpl. no_value.
  - rewrite integer_sign. unfold strconv.ParseInt10.
    destruct (Ascii.eqb c0 "+"); [apply (ParseInt10_signed false)|].
    destruct (Ascii.eqb c0 "-"); [apply (ParseInt10_signed true)|].
    apply (ParseInt10_signed false).
Qed.

Lemma atoi_fast_loop_spec s n :
  0 <= n -> (n + 1) * 10 ^ Z.of_nat (String.length s) <= 2 ^ 63 ->
  strconv.atoi_fast_loop s n = Spec.digits_from s n.
Proof.
  revert n. induction s as [|ch s IH]; intros n Hn Hb; [reflexivity|].
  cbn [strconv.atoi_fast_loop Spec.digits_from]. rewrite digit_byte.
  pose proof (byte_val_range ch) as Hc.
  set (c := strconv.byte_val ch) in *. unfold strconv.byte_sub.
  cbn [String.length] in Hb. rewrite Nat2Z.inj_succ, Z.pow_succ_r in Hb by lia.
  assert (Hp : 0 < 10 ^ Z.of_nat (String.length s))
    by (apply Z.pow_pos_nonneg; lia).
  destruct (Z.leb_spec 48 c) as [H48|H48], (Z.leb_spec c 57) as [H57|H57];
    cbn [andb].
  - rewrite (Z.mod_small (c - 48)) by lia.
    destruct (Z.ltb_spec 9 (c - 48)); [lia|].
    unfold GoInt.add, GoInt.mul.
    rewrite (wrap_id (n * 10))
      by (unfold GoInt.is_int, GoInt.minInt, GoInt.maxInt; nia).
    rewrite wrap_id by (unfold GoInt.is_int, GoInt.minInt, GoInt.maxInt; nia).
    apply IH; nia.
  - rewrite (Z.mod_small (c - 48)) by lia.
    destruct (Z.ltb_spec 9 (c - 48)); [reflexivity|lia].
  - replace ((c - 48) mod 256) with (c - 48 + 256)
      by (apply Z.mod_unique with (-1); lia).
    destruct (Z.ltb_spec 9 (c - 48 + 256)); [reflexivity|lia].
  - lia.
Qed.

Lemma pow10_le_18 n : (n <= 18)%nat -> 10 ^ Z.of_nat n <= 10 ^ 18.
Proof. intros H. apply Z.pow_le_mono_r; lia. Qed.

Lemma atoi_fast_natural s :
  s <> EmptyString -> (String.length s <= 18)%nat ->
  strconv.atoi_fast_loop s 0 = Spec.natural s
  /\ forall v, Spec.natural s = Some v -> 0 <= v < 10 ^ 18.
Proof.
  intros Hne Hlen. pose proof (pow10_le_18 _ Hlen) as Hp.
  assert (Spec.natural s = Spec.digits_from s 0) as ->
    by (destruct s; [contradiction | reflexivity]).
  split.
  - apply atoi_fast_loop_spec; lia.
  - intros v Hv. pose proof (digits_from_ge s 0 v ltac:(lia) Hv).
    pose proof (digits_from_lt s 0 v ltac:(lia) Hv). lia.
Qed.

(** [Atoi] succeeds exactly on the decimal integers that fit an [int], and
    returns their value; the fast path and [ParseInt] agree on this. *)
Lemma Atoi_spec s v :
  strconv.Atoi s = (v, None)
  <-> Spec.integer s = Some v /\ GoInt.is_int v.
Proof.
  unfold strconv.Atoi.
  destruct (Z.ltb_spec 0 (Z.of_nat (String.length s))) as [H0|H0];
    [|apply ParseInt10_spec].
  destruct (Z.ltb_spec (Z.of_nat (String.length s)) 19) as [H19|H19];
    [|apply ParseInt10_spec].
  cbn [andb]. destruct s as [|c0 rest]; [simpl in H0; lia|].
  rewrite integer_sign. cbn [String.length] in H19.
  assert (Hfast : forall s1 (neg : bool),
            (String.length s1 <= 18)%nat -> s1 <> EmptyString ->
            match strconv.atoi_fast_loop s1 0 with
            | Some n => (if neg then GoInt.neg n else n, None)
            | None => (0, Some strconv.ErrSyntax)
            end = (v, None)
            <-> (if neg then Z.opp <$> Spec.natural s1
                 else Spec.natural s1) = Some v
                /\ GoInt.is_int v).
  { intros s1 neg Hl Hne.
    destruct (atoi_fast_natural s1 Hne Hl) as [-> Hr].
    destruct (Spec.natural s1) as [n|];
      [|destruct neg; no_value].
    specialize (Hr n eq_refl).
    unfold GoInt.is_int, GoInt.minInt, GoInt.maxInt.
    destruct neg; cbn [fmap option_fmap option_map].
    - unfold GoInt.neg.
      rewrite wrap_id by fits.
      same_value.
    - same_value. }
  assert (Hlen1 : forall c1 r,
             (Z.of_nat (String.length (String c1 r)) <? 1) = false)
    by (intros; apply Z.ltb_ge; cbn [String.length]; lia).
  assert (Hempty : forall neg : bool,
            (0, Some strconv.ErrSyntax) = (v, None)
            <-> (if neg then Z.opp <$> Spec.natural EmptyString
                 else Spec.natural EmptyString) = Some v /\ GoInt.is_int v)
    by (intros []; no_value).
  destruct (Ascii.eqb_spec c0 "+") as [->|Hplus].
  - cbn [Ascii.eqb Bool.eqb orb andb].
    destruct rest as [|c1 rest]; [apply (Hempty false)|].
    rewrite Hlen1. cbn [andb].
    apply (Hfast _ false); [cbn [String.length] in *; lia | discriminate].
  - destruct (Ascii.eqb_spec c0 "-") as [->|Hminus].
    + cbn [orb andb].
      destruct rest as [|c1 rest]; [apply (Hempty true)|].
      rewrite Hlen1. cbn [andb].
      apply (Hfast _ true); [cbn [String.length] in *; lia | discriminate].
    + cbn [orb andb].
      apply (Hfast _ false); [cbn [String.length] in *; lia | discriminate].
Qed.

(** ** Validation and parsing of "MM-YYYY" *)

Lemma valid_is_int c :
  Spec.valid c -> GoInt.is_int (Spec.month c) /\ GoInt.is_int (Spec.year c).
Proof.
  unfold Spec.valid, GoInt.is_int, GoInt.minInt, GoInt.maxInt. lia.
Qed.

Lemma denotes_Split text c :
  Spec.denotes text c ->
  exists p0 p1,
    strings.Split text "-" = [p0; p1]
    /\ strconv.Atoi p0 = (Spec.month c, None)
    /\ strconv.Atoi p1 = (Spec.year c, None).
Proof.
  intros (p0 & p1 & Hs & H0 & H1 & Hv). exists p0, p1.
  destruct (valid_is_int c Hv) as [Hm Hy].
  split; [apply Split_two; exact Hs|].
  split; apply Atoi_spec; auto.
Qed.

(** The validator accepts exactly the texts of valid months. *)
Lemma isValidDateFormat_spec text :
  service.isValidDateFormat text = true <-> Spec.well_formed text.
Proof.
  unfold service.isValidDateFormat. split.
  - destruct (strings.Split text "-") as [|p0 [|p1 [|p2 ps]]] eqn:Es;
      try discriminate.
    2: { cbn [length].
         destruct (Z.eqb_spec (Z.of_nat (S (S (S (length ps))))) 2);
           [lia|discriminate]. }
    cbn [length]. change (Z.of_nat 2 =? 2) with true. cbn [negb].
    destruct (strconv.Atoi p0) as [month err1] eqn:E0.
    destruct (strconv.Atoi p1) as [year err2] eqn:E1.
    destruct err1; [discriminate|]. destruct err2; [discriminate|].
    rewrite !bool_decide_eq_false_2 by auto. cbn [orb].
    intros H. exists (Spec.mkMonth year month), p0, p1.
    apply Atoi_spec in E0 as [E0 _], E1 as [E1 _].
    split; [apply Split_two; exact Es|].
    split; [exact E0|]. split; [exact E1|].
    unfold Spec.valid. cbn [Spec.year Spec.month]. lia.
  - intros [c Hd]. pose proof Hd as (_ & _ & _ & _ & _ & [Hm Hy]).
    apply denotes_Split in Hd as (p0 & p1 & -> & -> & ->).
    cbn [length]. change (Z.of_nat 2 =? 2) with true. cbn [negb].
    rewrite !bool_decide_eq_false_2 by auto. cbn [orb]. lia.
Qed.

Lemma isValidDateFormat_false text :
  service.isValidDateFormat text = false <-> ~ Spec.well_formed text.
Proof.
  rewrite <- isValidDateFormat_spec.
  destruct (service.isValidDateFormat text); split; congruence.
Qed.

Lemma denotes_accepted text c :
  Spec.denotes text c -> service.isValidDateFormat text = true.
Proof. intros H. apply isValidDateFormat_spec. exists c. exact H. Qed.

(** On the text of a valid month, [parsePeriod] returns its time. *)
Lemma parsePeriod_denotes text c :
  Spec.denotes text c -> service.parsePeriod text = Ret (toTime c, None).
Proof.
  intros Hd. apply denotes_Split in Hd as (p0 & p1 & Hs & H0 & H1).
  unfold service.parsePeriod, service.index. rewrite Hs.
  change ([p0; p1] !! Z.to_nat 0) with (Some p0).
  change ([p0; p1] !! Z.to_nat 1) with (Some p1).
  cbn [exec_bind]. rewrite H0. cbn [exec_bind]. rewrite H1. reflexivity.
Qed.

Lemma denotes_valid text c : Spec.denotes text c -> Spec.valid c.
Proof. intros (_ & _ & _ & _ & _ & Hv). exact Hv. Qed.

(** A text denotes at most one month. *)
Lemma denotes_unique text c1 c2 :
  Spec.denotes text c1 -> Spec.denotes text c2 -> c1 = c2.
Proof.
  intros H1 H2. apply denotes_Split in H1 as (p0 & p1 & Hs & Hm & Hy).
  apply denotes_Split in H2 as (q0 & q1 & Hs' & Hm' & Hy').
  rewrite Hs in Hs'. injection Hs' as <- <-.
  destruct c1, c2; cbn in *. congruence.
Qed.

Lemma denotes_of_Split text p0 p1 m y :
  strings.Split text "-" = [p0; p1] ->
  Spec.integer p0 = Some m -> Spec.integer p1 = Some y ->
  Spec.valid (Spec.mkMonth y m) ->
  Spec.denotes text (Spec.mkMonth y m).
Proof.
  intros Hs H0 H1 Hv. exists p0, p1. apply Split_two in Hs. auto.
Qed.

Ltac denotes_by p0 p1 :=
  apply (denotes_of_Split _ p0 p1);
  [reflexivity | reflexivity | reflexivity | unfold Spec.valid; cbn; lia].

Lemma denotes_05_2025 : Spec.denotes "05-2025" may_2025.
Proof. denotes_by "05" "2025". Qed.
Lemma denotes_01_2025 : Spec.denotes "01-2025" jan_2025.
Proof. denotes_by "01" "2025". Qed.
Lemma denotes_12_2025 : Spec.denotes "12-2025" dec_2025.
Proof. denotes_by "12" "2025". Qed.
Lemma denotes_07_2025 : Spec.denotes "07-2025" jul_2025.
Proof. denotes_by "07" "2025". Qed.
Lemma denotes_06_2024 : Spec.denotes "06-2024" jun_2024.
Proof. denotes_by "06" "2024". Qed.
Lemma denotes_03_2025 : Spec.denotes "03-2025" mar_2025.
Proof. denotes_by "03" "2025". Qed.
Lemma denotes_02_2025 : Spec.denotes "02-2025" feb_2025.
Proof. denotes_by "02" "2025". Qed.

Lemma parsePeriod_no_separator s :
  Spec.free_of "-" s -> service.parsePeriod s = Panic (IndexOutOfRange 1 1).
Proof.
  intros H. unfold service.parsePeriod. rewrite (Split_free_one s "-" H).
  unfold service.index. cbn [lookup list_lookup Z.to_nat exec_bind].
  change ([s] !! Z.to_nat 0) with (Some s).
  change ([s] !! Z.to_nat 1) with (@None string).
  cbn [exec_bind]. destruct (strconv.Atoi s). reflexivity.
Qed.

Lemma isValidDateFormat_no_separator s :
  Spec.free_of "-" s -> service.isValidDateFormat s = false.
Proof.
  intros H. unfold service.isValidDateFormat. rewrite (Split_free_one s "-" H).
  reflexivity.
Qed.

(** C4: the validator accepts a string exactly when it consists of two
    separator-free components around one separator, both components are
    decimal integers, the first in [1,12] and the second in [1900,9999];
    it rejects every other string. *)
Theorem isValidDateFormat_accepts (text : string) :
  (service.isValidDateFormat text = true
   <-> exists p0 p1 m y,
       Spec.two_components text p0 p1
       /\ Spec.integer p0 = Some m /\ Spec.integer p1 = Some y
       /\ 1 <= m <= 12 /\ 1900 <= y <= 9999)
  /\ (service.isValidDateFormat text = false
      <-> ~ exists p0 p1 m y,
          Spec.two_components text p0 p1
          /\ Spec.integer p0 = Some m /\ Spec.integer p1 = Some y
          /\ 1 <= m <= 12 /\ 1900 <= y <= 9999).
Proof.
  assert (Hwf : Spec.well_formed text
                <-> exists p0 p1 m y,
                    Spec.two_components text p0 p1
                    /\ Spec.integer p0 = Some m /\ Spec.integer p1 = Some y
                    /\ 1 <= m <= 12 /\ 1900 <= y <= 9999).
  { split.
    - intros (c & p0 & p1 & Hs & H0 & H1 & Hm & Hy).
      exists p0, p1, (Spec.month c), (Spec.year c). auto.
    - intros (p0 & p1 & m & y & Hs & H0 & H1 & Hm & Hy).
      exists (Spec.mkMonth y m), p0, p1. unfold Spec.valid. auto. }
  split.
  - rewrite isValidDateFormat_spec. exact Hwf.
  - rewrite isValidDateFormat_false, Hwf. reflexivity.
Qed.

(** ** The later and the earlier of two times *)

Lemma later_valid a b :
  Spec.valid a -> Spec.valid b -> Spec.valid (Spec.later a b).
Proof. unfold Spec.later. destruct (Spec.precedesb a b); auto. Qed.

Lemma earlier_valid a b :
  Spec.valid a -> Spec.valid b -> Spec.valid (Spec.earlier a b).
Proof. unfold Spec.earlier. destruct (Spec.precedesb a b); auto. Qed.

Create HintDb months.
#[local] Hint Resolve later_valid earlier_valid denotes_valid : months.

(** [maxTime] and [minTime] pick the later and the earlier month. *)
Lemma maxTime_toTime a b :
  Spec.valid a -> Spec.valid b ->
  service.maxTime (toTime a) (toTime b) = toTime (Spec.later a b).
Proof.
  intros Ha Hb. unfold service.maxTime, Spec.later.
  rewrite toTime_After by assumption.
  destruct (Spec.precedesb b a) eqn:Eba, (Spec.precedesb a b) eqn:Eab;
    try reflexivity.
  - apply precedesb_spec in Eba, Eab. exfalso. eapply precedes_asym; eauto.
  - destruct (precedes_trichotomy a b) as [H|[->|H]]; [|reflexivity|];
      apply precedesb_spec in H; congruence.
Qed.

Lemma minTime_toTime a b :
  Spec.valid a -> Spec.valid b ->
  service.minTime (toTime a) (toTime b) = toTime (Spec.earlier a b).
Proof.
  intros Ha Hb. unfold service.minTime, Spec.earlier.
  rewrite toTime_Before by assumption.
  destruct (Spec.precedesb a b); reflexivity.
Qed.

(** On valid months the code computes the specified overlap count; none
    of its [int] operations wraps. *)
Lemma calculateOverlapMonths_toTime ws we ss se :
  Spec.valid ws -> Spec.valid we -> Spec.valid ss -> Spec.valid se ->
  service.calculateOverlapMonths (toTime ws) (toTime we) (toTime ss) (toTime se)
  = Spec.overlapMonths ws we ss se.
Proof.
  intros Hws Hwe Hss Hse.
  unfold service.calculateOverlapMonths, Spec.overlapMonths.
  rewrite maxTime_toTime, minTime_toTime by assumption.
  assert (Hs : Spec.valid (Spec.later ws ss)) by auto with months.
  assert (He : Spec.valid (Spec.earlier we se)) by auto with months.
  rewrite toTime_After by assumption.
  destruct (Spec.precedesb (Spec.earlier we se) (Spec.later ws ss));
    [reflexivity|].
  rewrite !toTime_Year, !toTime_Month by assumption.
  destruct Hs as [Hsm Hsy], He as [Hem Hey].
  unfold Spec.span, GoInt.add, GoInt.sub, GoInt.mul.
  unwrap_int. reflexivity.
Qed.

(** ** The overlap count *)

Lemma le_spec a b : Spec.le a b <-> Spec.precedesb b a = false.
Proof.
  unfold Spec.le. rewrite <- precedesb_spec.
  destruct (Spec.precedesb b a); split; congruence.
Qed.

Lemma span_index a b : Spec.span a b = month_index b - month_index a + 1.
Proof. unfold Spec.span, month_index. lia. Qed.

Lemma precedes_index a b :
  Spec.valid a -> Spec.valid b ->
  (Spec.precedes a b <-> month_index a < month_index b).
Proof. unfold Spec.valid, Spec.precedes, month_index. lia. Qed.

Lemma precedesb_index a b :
  Spec.valid a -> Spec.valid b ->
  Spec.precedesb a b = (month_index a <? month_index b).
Proof.
  intros Ha Hb. pose proof (precedes_index a b Ha Hb) as H.
  rewrite <- precedesb_spec in H.
  destruct (Spec.precedesb a b), (Z.ltb_spec (month_index a) (month_index b));
    try reflexivity; lia.
Qed.

Lemma later_index a b :
  Spec.valid a -> Spec.valid b ->
  month_index (Spec.later a b) = Z.max (month_index a) (month_index b).
Proof.
  intros Ha Hb. unfold Spec.later. rewrite precedesb_index by assumption.
  destruct (Z.ltb_spec (month_index a) (month_index b)); lia.
Qed.

Lemma earlier_index a b :
  Spec.valid a -> Spec.valid b ->
  month_index (Spec.earlier a b) = Z.min (month_index a) (month_index b).
Proof.
  intros Ha Hb. unfold Spec.earlier. rewrite precedesb_index by assumption.
  destruct (Z.ltb_spec (month_index a) (month_index b)); lia.
Qed.

(** The overlap count in terms of consecutive month numbers. *)
Lemma overlapMonths_index ws we ss se :
  Spec.valid ws -> Spec.valid we -> Spec.valid ss -> Spec.valid se ->
  Spec.overlapMonths ws we ss se
  = Z.max 0 (Z.min (month_index we) (month_index se)
             - Z.max (month_index ws) (month_index ss) + 1).
Proof.
  intros Hws Hwe Hss Hse. unfold Spec.overlapMonths.
  pose proof (later_valid _ _ Hws Hss) as Hs.
  pose proof (earlier_valid _ _ Hwe Hse) as He.
  rewrite precedesb_index, span_index by assumption.
  rewrite later_index, earlier_index by assumption.
  destruct (Z.ltb_spec (Z.min (month_index we) (month_index se))
                       (Z.max (month_index ws) (month_index ss))); lia.
Qed.

(** C1: for valid months, [calculateOverlapMonths] is 0 when the later of
    the two starts is strictly after the earlier of the two ends, and
    otherwise the inclusive month count between them, which is at least 1. *)
Theorem calculateOverlapMonths_formula ws we ss se :
  Spec.valid ws -> Spec.valid we -> Spec.valid ss -> Spec.valid se ->
  let effectiveStart := Spec.later ws ss in
  let effectiveEnd := Spec.earlier we se in
  let n := service.calculateOverlapMonths
             (toTime ws) (toTime we) (toTime ss) (toTime se) in
  (Spec.precedes effectiveEnd effectiveStart -> n = 0)
  /\ (~ Spec.precedes effectiveEnd effectiveStart ->
      n = (Spec.year effectiveEnd - Spec.year effectiveStart) * 12
          + (Spec.month effectiveEnd - Spec.month effectiveStart) + 1
      /\ 1 <= n).
Proof.
  intros Hws Hwe Hss Hse es ee n. subst n.
  rewrite calculateOverlapMonths_toTime by assumption.
  unfold Spec.overlapMonths. fold es ee.
  pose proof (later_valid _ _ Hws Hss) as Hs. fold es in Hs.
  pose proof (earlier_valid _ _ Hwe Hse) as He. fold ee in He.
  split; intros H.
  - apply precedesb_spec in H. rewrite H. reflexivity.
  - destruct (Spec.precedesb ee es) eqn:E;
      [apply precedesb_spec in E; contradiction|].
    split; [reflexivity|].
    rewrite precedes_index in H by assumption.
    rewrite span_index. lia.
Qed.

(** C6: when the subscription interval contains the window, the overlap is
    the inclusive span of the window; a single month against itself gives 1. *)
Theorem overlap_of_contained_window :
  (forall ws we ss se,
      Spec.valid ws -> Spec.valid we -> Spec.valid ss -> Spec.valid se ->
      Spec.le ws we -> Spec.le ss ws -> Spec.le we se ->
      service.calculateOverlapMonths
        (toTime ws) (toTime we) (toTime ss) (toTime se)
      = Spec.span ws we)
  /\ (forall x,
         Spec.valid x ->
         service.calculateOverlapMonths
           (toTime x) (toTime x) (toTime x) (toTime x) = 1).
Proof.
  split.
  - intros ws we ss se Hws Hwe Hss Hse H1 H2 H3.
    rewrite calculateOverlapMonths_toTime, overlapMonths_index by assumption.
    unfold Spec.le in *. rewrite precedes_index in H1, H2, H3 by assumption.
    rewrite span_index. lia.
  - intros x Hx.
    rewrite calculateOverlapMonths_toTime, overlapMonths_index by assumption.
    lia.
Qed.

(** C7: extending the end of the window never decreases the overlap. *)
Theorem overlap_monotone_in_window_end ws ss se e1 e2 :
  Spec.valid ws -> Spec.valid ss -> Spec.valid se ->
  Spec.valid e1 -> Spec.valid e2 ->
  Spec.le e1 e2 ->
  service.calculateOverlapMonths
    (toTime ws) (toTime e1) (toTime ss) (toTime se)
  <= service.calculateOverlapMonths
       (toTime ws) (toTime e2) (toTime ss) (toTime se).
Proof.
  intros Hws Hss Hse H1 H2 Hle.
  rewrite !calculateOverlapMonths_toTime, !overlapMonths_index by assumption.
  unfold Spec.le in Hle. rewrite precedes_index in Hle by assumption. lia.
Qed.

(** C9: on the times parsed from valid months, [After] and [Before] are the
    order on (year, month) pairs. *)
Theorem After_is_calendar_order A B :
  Spec.valid A -> Spec.valid B ->
  (time.After (toTime A) (toTime B) = true
   <-> Spec.year A > Spec.year B
       \/ (Spec.year A = Spec.year B /\ Spec.month A > Spec.month B))
  /\ (time.Before (toTime A) (toTime B) = true <-> Spec.precedes A B)
  /\ (forall sa sb,
         Spec.denotes sa A -> Spec.denotes sb B ->
         service.parsePeriod sa = Ret (toTime A, None)
         /\ service.parsePeriod sb = Ret (toTime B, None)).
Proof.
  intros HA HB. split; [|split].
  - rewrite toTime_After, precedesb_spec by assumption.
    unfold Spec.precedes. lia.
  - rewrite toTime_Before by assumption. apply precedesb_spec.
  - intros sa sb Ha Hb. split; apply parsePeriod_denotes; assumption.
Qed.

Lemma After_asym t u : time.After t u = true -> time.After u t = false.
Proof. unfold time.After. lia. Qed.

Lemma Before_asym t u : time.Before t u = true -> time.Before u t = false.
Proof. unfold time.Before. lia. Qed.

Lemma After_total t u :
  time.After t u = false -> time.After u t = false -> t = u.
Proof.
  destruct t as [e1 n1], u as [e2 n2].
  unfold time.After. cbn [time.ext time.nsec].
  intros H1 H2. f_equal; lia.
Qed.

Lemma Before_total t u :
  time.Before t u = false -> time.Before u t = false -> t = u.
Proof.
  destruct t as [e1 n1], u as [e2 n2].
  unfold time.Before. cbn [time.ext time.nsec].
  intros H1 H2. f_equal; lia.
Qed.

Lemma maxTime_comm a b : service.maxTime a b = service.maxTime b a.
Proof.
  unfold service.maxTime.
  destruct (time.After a b) eqn:Eab.
  - rewrite (After_asym _ _ Eab). reflexivity.
  - destruct (time.After b a) eqn:Eba; [reflexivity|].
    symmetry. apply After_total; assumption.
Qed.

Lemma minTime_comm a b : service.minTime a b = service.minTime b a.
Proof.
  unfold service.minTime.
  destruct (time.Before a b) eqn:Eab.
  - rewrite (Before_asym _ _ Eab). reflexivity.
  - destruct (time.Before b a) eqn:Eba; [reflexivity|].
    symmetry. apply Before_total; assumption.
Qed.

(** C10: swapping the window and the subscription interval does not change
    the overlap count, for any four times. *)
Theorem calculateOverlapMonths_symmetric (a b c d : time.Time) :
  service.calculateOverlapMonths a b c d
  = service.calculateOverlapMonths c d a b.
Proof.
  unfold service.calculateOverlapMonths.
  rewrite (maxTime_comm a c), (minTime_comm b d). reflexivity.
Qed.

(** ** The total-cost operation *)

Section GetTotalCost.

Context {DB : Type} (repo : repository.SubscriptionRepository DB).

Lemma GetTotalCost_bad_format req w :
  ~ Spec.well_formed (models.StartPeriod req)
  \/ ~ Spec.well_formed (models.EndPeriod req) ->
  service.GetTotalCost repo req w = Ret (Err service.format_error, w).
Proof.
  intros H. unfold service.GetTotalCost.
  destruct H as [H|H]; apply isValidDateFormat_false in H; rewrite H;
    [reflexivity|].
  destruct (service.isValidDateFormat (models.StartPeriod req)); reflexivity.
Qed.

(** With both periods well formed, the range check decides between the
    range error and the aggregation. *)
Lemma GetTotalCost_parsed req w cs ce :
  Spec.denotes (models.StartPeriod req) cs ->
  Spec.denotes (models.EndPeriod req) ce ->
  service.GetTotalCost repo req w
  = if Spec.precedesb ce cs then Ret (Err service.range_error, w)
    else aggregation repo req (toTime cs) (toTime ce) w.
Proof.
  intros Hs He. unfold service.GetTotalCost.
  rewrite (denotes_accepted _ _ Hs), (denotes_accepted _ _ He).
  rewrite (parsePeriod_denotes _ _ Hs), (parsePeriod_denotes _ _ He).
  cbn [negb orb exec_bind].
  rewrite bool_decide_eq_false_2 by auto.
  rewrite toTime_After by eauto with months.
  reflexivity.
Qed.

(** The aggregation always records its call to [List]. *)
Lemma aggregation_changes_world req s e w r :
  aggregation repo req s e w <> Ret (r, w).
Proof.
  unfold aggregation. intros H.
  assert (Hlen : forall (r' : result models.TotalCostResponse) ev w',
             Ret (r', emit ev (emit (CallList (requested_filters req)) w))
             = Ret (r, w') ->
             length (trace w') = S (S (length (trace w)))).
  { intros r' ev w' [= _ <-]. unfold emit. cbn [trace].
    rewrite !length_app. cbn [length]. lia. }
  destruct (repository.List repo _ _) as [subs|err].
  - destruct (service.totalCost_loop s e subs 0); [|discriminate].
    cbn [exec_bind] in H. apply Hlen in H. lia.
  - apply Hlen in H. lia.
Qed.

End GetTotalCost.

(** C5: [GetTotalCost] answers with the format error when a period is not
    a valid MM-YYYY date, with the range error exactly when both periods
    parse and the start is strictly after the end, and otherwise goes on
    to list and aggregate; a total is only produced after validation, and
    a failed validation leaves the world untouched (for the window
    05-2025 .. 01-2025 in particular). *)
Theorem GetTotalCost_validation {DB}
    (repo : repository.SubscriptionRepository DB)
    (req : models.TotalCostRequest) (w : World DB) :
  (~ Spec.well_formed (models.StartPeriod req)
   \/ ~ Spec.well_formed (models.EndPeriod req) ->
   service.GetTotalCost repo req w = Ret (Err service.format_error, w))
  /\ (service.GetTotalCost repo req w = Ret (Err service.range_error, w)
      <-> exists cs ce,
          Spec.denotes (models.StartPeriod req) cs
          /\ Spec.denotes (models.EndPeriod req) ce
          /\ Spec.precedes ce cs)
  /\ (forall cs ce,
         Spec.denotes (models.StartPeriod req) cs ->
         Spec.denotes (models.EndPeriod req) ce ->
         ~ Spec.precedes ce cs ->
         service.GetTotalCost repo req w
         = aggregation repo req (toTime cs) (toTime ce) w)
  /\ (forall r w',
         service.GetTotalCost repo req w = Ret (Ok r, w') ->
         exists cs ce,
           Spec.denotes (models.StartPeriod req) cs
           /\ Spec.denotes (models.EndPeriod req) ce
           /\ Spec.le cs ce
           /\ trace w' = trace w ++ [CallList (requested_filters req);
                                     LogInfo "Total cost calculated"])
  /\ service.GetTotalCost repo (window "05-2025" "01-2025") w
     = Ret (Err service.range_error, w).
Proof.
  assert (Hcases :
    (~ Spec.well_formed (models.StartPeriod req)
     \/ ~ Spec.well_formed (models.EndPeriod req))
    \/ exists cs ce, Spec.denotes (models.StartPeriod req) cs
                     /\ Spec.denotes (models.EndPeriod req) ce).
  { destruct (service.isValidDateFormat (models.StartPeriod req)) eqn:Es.
    - destruct (service.isValidDateFormat (models.EndPeriod req)) eqn:Ee.
      + right. apply isValidDateFormat_spec in Es as [cs Hs], Ee as [ce He].
        eauto.
      + left. right. apply isValidDateFormat_false. exact Ee.
    - left. left. apply isValidDateFormat_false. exact Es. }
  split; [apply GetTotalCost_bad_format|].
  split; [|split; [|split]].
  - split.
    + intros H. destruct Hcases as [Hbad | (cs & ce & Hs & He)].
      * rewrite (GetTotalCost_bad_format repo req w Hbad) in H. discriminate.
      * exists cs, ce. split; [exact Hs|]. split; [exact He|].
        rewrite (GetTotalCost_parsed repo req w cs ce Hs He) in H.
        destruct (Spec.precedesb ce cs) eqn:E; [apply precedesb_spec; exact E|].
        exfalso. eapply aggregation_changes_world. exact H.
    + intros (cs & ce & Hs & He & Hp).
      rewrite (GetTotalCost_parsed repo req w cs ce Hs He).
      apply precedesb_spec in Hp. rewrite Hp. reflexivity.
  - intros cs ce Hs He Hp.
    rewrite (GetTotalCost_parsed repo req w cs ce Hs He).
    destruct (Spec.precedesb ce cs) eqn:E;
      [apply precedesb_spec in E; contradiction | reflexivity].
  - intros r w' H. destruct Hcases as [Hbad | (cs & ce & Hs & He)].
    + rewrite (GetTotalCost_bad_format repo req w Hbad) in H. discriminate.
    + exists cs, ce. split; [exact Hs|]. split; [exact He|].
      rewrite (GetTotalCost_parsed repo req w cs ce Hs He) in H.
      destruct (Spec.precedesb ce cs) eqn:E; [discriminate|].
      split; [apply le_spec; exact E|].
      unfold aggregation in H.
      destruct (repository.List repo _ _) as [subs|err]; [|discriminate].
      destruct (service.totalCost_loop _ _ subs 0); [|discriminate].
      cbn [exec_bind] in H. injection H as _ <-.
      unfold emit. cbn [trace]. rewrite <- app_assoc. reflexivity.
  - rewrite (GetTotalCost_parsed repo (window "05-2025" "01-2025") w
               may_2025 jan_2025 denotes_05_2025 denotes_01_2025).
    reflexivity.
Qed.

(** ** The aggregation loop *)

Lemma in_windowb_spec ws we c :
  Spec.in_windowb ws we c = true <-> Spec.in_window ws we c.
Proof.
  unfold Spec.in_windowb, Spec.in_window. rewrite !le_spec.
  destruct (Spec.precedesb c ws), (Spec.precedesb we c); cbn;
    intuition congruence.
Qed.

Lemma overlapMonths_nonneg ws we ss se :
  Spec.valid ws -> Spec.valid we -> Spec.valid ss -> Spec.valid se ->
  0 <= Spec.overlapMonths ws we ss se.
Proof. intros. rewrite overlapMonths_index by assumption. lia. Qed.

(** One round of the loop adds the record's contribution. *)
Lemma totalCost_step_reads wS wE sub r totalCost :
  Spec.valid wS -> Spec.valid wE -> reads_as sub r ->
  service.totalCost_step (toTime wS) (toTime wE) totalCost sub
  = Ret (match Spec.term r with
         | Spec.OpenEnded =>
             if Spec.in_windowb wS wE (Spec.start r)
             then GoInt.add totalCost (Spec.price r) else totalCost
         | Spec.Closed e =>
             GoInt.add totalCost
               (GoInt.mul (Spec.price r)
                  (Spec.overlapMonths wS wE (Spec.start r) e))
         end).
Proof.
  intros HwS HwE (Hp & Hs & He). unfold service.totalCost_step.
  rewrite (parsePeriod_denotes _ _ Hs). cbn [exec_bind].
  pose proof (denotes_valid _ _ Hs) as Hvs.
  destruct (models.EndDate sub) as [e|], (Spec.term r) as [ce|];
    try contradiction.
  - rewrite (parsePeriod_denotes _ _ He). cbn [exec_bind].
    rewrite calculateOverlapMonths_toTime by eauto with months.
    rewrite Hp. reflexivity.
  - rewrite toTime_Before, toTime_After by assumption.
    rewrite Hp. unfold Spec.in_windowb.
    destruct (negb (Spec.precedesb (Spec.start r) wS)
              && negb (Spec.precedesb wE (Spec.start r))); reflexivity.
Qed.

Lemma totalCost_step_contribution wS wE sub r acc :
  Spec.valid wS -> Spec.valid wE -> reads_as sub r ->
  service.totalCost_step (toTime wS) (toTime wE) (GoInt.wrap acc) sub
  = Ret (GoInt.wrap (acc + Spec.contribution wS wE r)).
Proof.
  intros HwS HwE Hr. rewrite (totalCost_step_reads _ _ _ r) by assumption.
  unfold Spec.contribution, GoInt.add, GoInt.mul. f_equal.
  destruct (Spec.term r) as [e|].
  - rewrite wrap_add_l, wrap_add_r. reflexivity.
  - destruct (Spec.in_windowb wS wE (Spec.start r)).
    + apply wrap_add_l.
    + rewrite Z.add_0_r. reflexivity.
Qed.

(** The loop computes the sum of the contributions, reduced to an [int]. *)
Lemma totalCost_loop_wrap wS wE subs rs acc :
  Spec.valid wS -> Spec.valid wE -> Forall2 reads_as subs rs ->
  service.totalCost_loop (toTime wS) (toTime wE) subs (GoInt.wrap acc)
  = Ret (GoInt.wrap (acc + Spec.totalCost wS wE rs)).
Proof.
  intros HwS HwE H. revert acc.
  induction H as [|sub r subs rs Hr _ IH]; intros acc.
  - cbn. rewrite Z.add_0_r. reflexivity.
  - cbn [service.totalCost_loop].
    rewrite (totalCost_step_contribution _ _ _ r) by assumption.
    cbn [exec_bind]. rewrite IH. f_equal. f_equal.
    unfold Spec.totalCost. cbn [map foldr]. lia.
Qed.

Lemma contribution_nonneg wS wE r :
  Spec.valid wS -> Spec.valid wE ->
  Spec.valid (Spec.start r) ->
  match Spec.term r with
  | Spec.Closed e => Spec.valid e
  | Spec.OpenEnded => True
  end ->
  0 <= Spec.price r -> 0 <= Spec.contribution wS wE r.
Proof.
  intros HwS HwE Hs He Hp. unfold Spec.contribution.
  destruct (Spec.term r) as [e|].
  - apply Z.mul_nonneg_nonneg; [exact Hp|].
    apply overlapMonths_nonneg; assumption.
  - destruct (Spec.in_windowb wS wE (Spec.start r)); lia.
Qed.

Lemma totalCost_nonneg wS wE subs rs :
  Spec.valid wS -> Spec.valid wE -> Forall2 reads_as subs rs ->
  Forall (fun r => 0 <= Spec.price r) rs ->
  0 <= Spec.totalCost wS wE rs.
Proof.
  intros HwS HwE H. induction H as [|sub r subs rs Hr _ IH]; intros Hp.
  - cbn. lia.
  - inversion Hp as [|? ? Hp1 Hp2]; subst.
    unfold Spec.totalCost. cbn [map foldr].
    fold (Spec.totalCost wS wE rs).
    assert (0 <= Spec.contribution wS wE r).
    { destruct Hr as (_ & Hs & He). apply contribution_nonneg; try assumption.
      - eapply denotes_valid; eassumption.
      - destruct (models.EndDate sub), (Spec.term r); try contradiction;
          [|exact I].
        eapply denotes_valid; eassumption. }
    specialize (IH Hp2). lia.
Qed.

Lemma aggregation_listed {DB} (repo : repository.SubscriptionRepository DB)
    req wS wE w subs rs :
  Spec.valid wS -> Spec.valid wE ->
  repository.List repo (requested_filters req) (db w) = Ok subs ->
  Forall2 reads_as subs rs ->
  aggregation repo req (toTime wS) (toTime wE) w
  = Ret (Ok (models.mkTotalCostResponse
               (GoInt.wrap (Spec.totalCost wS wE rs))),
         emit (LogInfo "Total cost calculated")
              (emit (CallList (requested_filters req)) w)).
Proof.
  intros HwS HwE Hl Hr. unfold aggregation.
  change (db (emit (CallList (requested_filters req)) w)) with (db w).
  rewrite Hl. change 0 with (GoInt.wrap 0) at 1.
  rewrite (totalCost_loop_wrap wS wE subs rs 0) by assumption.
  reflexivity.
Qed.

(** C2: an open-ended subscription adds its price to the running total,
    once, exactly when its start lies in the window (bounds included), and
    leaves the total unchanged otherwise; alone in the list it makes the
    total its price or 0; for the window 01-2025 .. 12-2025 and price 400
    from 07-2025 the total is 400. *)
Theorem open_ended_contributes_once :
  (forall wS wE sub sS totalCost,
      Spec.valid wS -> Spec.valid wE -> Spec.le wS wE ->
      models.EndDate sub = None ->
      Spec.denotes (models.StartDate sub) sS ->
      (Spec.in_window wS wE sS ->
       service.totalCost_step (toTime wS) (toTime wE) totalCost sub
       = Ret (GoInt.add totalCost (models.Price sub)))
      /\ (~ Spec.in_window wS wE sS ->
          service.totalCost_step (toTime wS) (toTime wE) totalCost sub
          = Ret totalCost))
  /\ (forall DB (repo : repository.SubscriptionRepository DB)
             req w wS wE sub sS,
         Spec.denotes (models.StartPeriod req) wS ->
         Spec.denotes (models.EndPeriod req) wE ->
         Spec.le wS wE ->
         repository.List repo (requested_filters req) (db w) = Ok [sub] ->
         models.EndDate sub = None ->
         Spec.denotes (models.StartDate sub) sS ->
         GoInt.is_int (models.Price sub) ->
         exists w',
           service.GetTotalCost repo req w
           = Ret (Ok (models.mkTotalCostResponse
                        (if Spec.in_windowb wS wE sS
                         then models.Price sub else 0)), w'))
  /\ exists w',
      service.GetTotalCost repository.table (window "01-2025" "12-2025")
        (world_of [sub_of 1 400 "07-2025" None])
      = Ret (Ok (models.mkTotalCostResponse 400), w').
Proof.
  assert (Hreads : forall sub sS,
             models.EndDate sub = None ->
             Spec.denotes (models.StartDate sub) sS ->
             reads_as sub
               (Spec.mkInterval (models.Price sub) sS Spec.OpenEnded)).
  { intros sub sS He Hs. unfold reads_as. cbn [Spec.price Spec.start Spec.term].
    rewrite He. auto. }
  split; [|split].
  - intros wS wE sub sS totalCost HwS HwE _ He Hs.
    rewrite (totalCost_step_reads wS wE sub _ totalCost HwS HwE
               (Hreads sub sS He Hs)).
    cbn [Spec.term Spec.start Spec.price].
    split; intros Hin.
    + apply in_windowb_spec in Hin. rewrite Hin. reflexivity.
    + destruct (Spec.in_windowb wS wE sS) eqn:E;
        [apply in_windowb_spec in E; contradiction | reflexivity].
  - intros DB repo req w wS wE sub sS HwS HwE Hle Hl He Hs Hint.
    pose proof (denotes_valid _ _ HwS) as HvS.
    pose proof (denotes_valid _ _ HwE) as HvE.
    rewrite (GetTotalCost_parsed repo req w wS wE HwS HwE).
    apply le_spec in Hle. rewrite Hle.
    rewrite (aggregation_listed repo req wS wE w [sub]
               [Spec.mkInterval (models.Price sub) sS Spec.OpenEnded])
      by (auto using Forall2_cons, Forall2_nil).
    unfold Spec.totalCost, Spec.contribution.
    cbn [map foldr Spec.term Spec.start Spec.price]. rewrite Z.add_0_r.
    destruct (Spec.in_windowb wS wE sS);
      [rewrite (wrap_id _ Hint) | change (GoInt.wrap 0) with 0];
      eexists; reflexivity.
  - eexists. vm_compute. reflexivity.
Qed.

(** C3, amended: for a valid window and records with non-negative prices
    and valid dates whose contributions sum to at most 2^63 - 1, the total
    is the sum of the contributions and is non-negative; for the window
    01-2025 .. 12-2025 and price 100 from 06-2024 to 03-2025 it is 300. *)
Theorem total_is_sum_of_contributions :
  (forall DB (repo : repository.SubscriptionRepository DB) req w wS wE subs rs,
      Spec.denotes (models.StartPeriod req) wS ->
      Spec.denotes (models.EndPeriod req) wE ->
      Spec.le wS wE ->
      repository.List repo (requested_filters req) (db w) = Ok subs ->
      Forall2 reads_as subs rs ->
      Forall (fun r => 0 <= Spec.price r) rs ->
      Spec.totalCost wS wE rs <= GoInt.maxInt ->
      0 <= Spec.totalCost wS wE rs
      /\ exists w',
          service.GetTotalCost repo req w
          = Ret (Ok (models.mkTotalCostResponse (Spec.totalCost wS wE rs)), w'))
  /\ exists w',
      service.GetTotalCost repository.table (window "01-2025" "12-2025")
        (world_of [sub_of 1 100 "06-2024" (Some "03-2025")])
      = Ret (Ok (models.mkTotalCostResponse 300), w').
Proof.
  split.
  - intros DB repo req w wS wE subs rs HwS HwE Hle Hl Hr Hp Hmax.
    pose proof (denotes_valid _ _ HwS) as HvS.
    pose proof (denotes_valid _ _ HwE) as HvE.
    pose proof (totalCost_nonneg wS wE subs rs HvS HvE Hr Hp) as Hge.
    split; [exact Hge|].
    rewrite (GetTotalCost_parsed repo req w wS wE HwS HwE).
    apply le_spec in Hle. rewrite Hle.
    rewrite (aggregation_listed repo req wS wE w subs rs) by assumption.
    rewrite wrap_id by fits.
    eexists. reflexivity.
  - eexists. vm_compute. reflexivity.
Qed.

(** C3 as stated fails: one closed record with price 2^62 overlapping the
    window in two months contributes 2^63, and the total the service
    returns is -2^63. *)
Lemma total_overflows :
  let sub := sub_of 1 (2 ^ 62) "01-2025" (Some "02-2025") in
  let r := Spec.mkInterval (2 ^ 62) jan_2025 (Spec.Closed feb_2025) in
  let wS := jan_2025 in
  let wE := dec_2025 in
  Spec.denotes "01-2025" wS /\ Spec.denotes "12-2025" wE /\ Spec.le wS wE
  /\ reads_as sub r /\ 0 <= Spec.price r
  /\ Spec.totalCost wS wE [r] = 2 ^ 63
  /\ (exists w',
         service.GetTotalCost repository.table (window "01-2025" "12-2025")
           (world_of [sub])
         = Ret (Ok (models.mkTotalCostResponse (- 2 ^ 63)), w'))
  /\ - 2 ^ 63 <> Spec.totalCost wS wE [r]
  /\ - 2 ^ 63 < 0.
Proof.
  cbv zeta.
  split; [exact denotes_01_2025|]. split; [exact denotes_12_2025|].
  split; [unfold Spec.le, Spec.precedes; cbn; lia|].
  split; [split; [reflexivity|];
          split; [exact denotes_01_2025 | exact denotes_02_2025]|].
  split; [cbn; lia|]. split; [vm_compute; reflexivity|].
  split; [eexists; vm_compute; reflexivity|].
  split; [vm_compute; discriminate | lia].
Qed.

(** *** Overflow with prices the table can hold

    The column [price] is a 32-bit INTEGER.  44188 records at the largest
    such price, each running from 01-1900 to 12-9999 under the same
    window, already take the running total past 2^63 - 1. *)

Lemma totalCost_replicate wS wE r n :
  Spec.totalCost wS wE (replicate n r)
  = Z.of_nat n * Spec.contribution wS wE r.
Proof.
  unfold Spec.totalCost. induction n as [|n IH]; [reflexivity|].
  cbn [replicate map foldr]. rewrite IH. lia.
Qed.

Lemma denotes_01_1900 : Spec.denotes "01-1900" (Spec.mkMonth 1900 1).
Proof. denotes_by "01" "1900". Qed.

Lemma denotes_12_9999 : Spec.denotes "12-9999" (Spec.mkMonth 9999 12).
Proof. denotes_by "12" "9999". Qed.

Lemma stored_prices_overflow :
  service.totalCost_loop
    (toTime (Spec.mkMonth 1900 1)) (toTime (Spec.mkMonth 9999 12))
    (replicate (Z.to_nat 44188)
       (sub_of 1 2147483647 "01-1900" (Some "12-9999"))) 0
  = Ret (44188 * (2147483647 * 97200) - 2 ^ 64)
  /\ 44188 * (2147483647 * 97200) - 2 ^ 64 < 0.
Proof.
  split; [|vm_compute; reflexivity].
  change 0 with (GoInt.wrap 0) at 1.
  rewrite (totalCost_loop_wrap _ _ _
             (replicate (Z.to_nat 44188)
                (Spec.mkInterval 2147483647 (Spec.mkMonth 1900 1)
                   (Spec.Closed (Spec.mkMonth 9999 12))))).
  - rewrite totalCost_replicate. vm_compute. reflexivity.
  - unfold Spec.valid. cbn. lia.
  - unfold Spec.valid. cbn. lia.
  - apply Forall2_replicate.
    split; [reflexivity|].
    split; [exact denotes_01_1900 | exact denotes_12_9999].
Qed.

(** ** Update and the unvalidated end date *)

(** C8: a string the validator accepts is parsed without a panic; a string
    without a separator (the empty string among them) is rejected by the
    validator and makes [parsePeriod] index out of range; [Update] lets the
    empty string through as end date, and the aggregation loop then panics
    on the stored record. *)
Theorem parsePeriod_requires_validation :
  (forall s,
      service.isValidDateFormat s = true ->
      exists c p0 p1,
        strings.Split s "-" = [p0; p1]
        /\ strconv.Atoi p0 = (Spec.month c, None)
        /\ strconv.Atoi p1 = (Spec.year c, None)
        /\ Spec.valid c
        /\ service.parsePeriod s = Ret (toTime c, None))
  /\ (forall s,
         Spec.free_of "-" s ->
         service.isValidDateFormat s = false
         /\ service.parsePeriod s = Panic (IndexOutOfRange 1 1))
  /\ (forall DB (repo : repository.SubscriptionRepository DB) id req w existing,
         match models.upd_StartDate req with
         | Some d => service.isValidDateFormat d = true
         | None => True
         end ->
         models.upd_EndDate req = Some EmptyString ->
         repository.GetByID repo id (db w) = Ok existing ->
         exists stored w',
           service.Update repo id req w
           = Ret (match (repository.Update repo stored (db w)).2 with
                  | None => Ok stored
                  | Some e => Err e
                  end, w')
           /\ models.EndDate stored = Some EmptyString
           /\ In (CallUpdate stored) (trace w'))
  /\ (forall startPeriod endPeriod totalCost sub,
         Spec.well_formed (models.StartDate sub) ->
         models.EndDate sub = Some EmptyString ->
         service.totalCost_step startPeriod endPeriod totalCost sub
         = Panic (IndexOutOfRange 1 1))
  /\ exists stored w1,
      service.Update repository.table 1%N
        (models.mkSubscriptionUpdate None None None None (Some EmptyString))
        (world_of [sub_of 1 100 "01-2025" (Some "12-2025")])
      = Ret (Ok stored, w1)
      /\ models.EndDate stored = Some EmptyString
      /\ service.GetTotalCost repository.table (window "01-2025" "12-2025") w1
         = Panic (IndexOutOfRange 1 1).
Proof.
  split; [|split; [|split; [|split]]].
  - intros s H. apply isValidDateFormat_spec in H as [c Hc].
    destruct (denotes_Split s c Hc) as (p0 & p1 & Hs & H0 & H1).
    exists c, p0, p1.
    split; [exact Hs|]. split; [exact H0|]. split; [exact H1|].
    split; [eapply denotes_valid | apply parsePeriod_denotes]; exact Hc.
  - intros s H. split;
      [apply isValidDateFormat_no_separator | apply parsePeriod_no_separator];
      exact H.
  - intros DB repo id req w existing Hs He Hg. unfold service.Update.
    rewrite He.
    assert (match models.upd_StartDate req with
            | Some d => negb (service.isValidDateFormat d)
            | None => false
            end = false) as ->
      by (destruct (models.upd_StartDate req); [rewrite Hs|]; reflexivity).
    cbn [String.eqb negb andb].
    change (db (emit (CallGetByID id) w)) with (db w). rewrite Hg.
    match goal with
    | |- context [repository.Update repo ?st _] => exists st
    end.
    cbn [db emit].
    destruct (repository.Update repo _ (db w)) as [db' [e|]];
      eexists; (split; [reflexivity|]); (split; [reflexivity|]);
      unfold emit; cbn [trace]; rewrite !in_app_iff; cbn; auto.
  - intros sP eP totalCost sub [c Hc] He. unfold service.totalCost_step.
    rewrite (parsePeriod_denotes _ _ Hc). cbn [exec_bind]. rewrite He.
    rewrite (parsePeriod_no_separator EmptyString I). reflexivity.
  - eexists _, _. split; [vm_compute; reflexivity|].
    split; [reflexivity|]. vm_compute. reflexivity.
Qed.

(** ** The library models at known values *)

Example Split_two_parts : strings.Split "07-2025" "-" = ["07"; "2025"].
Proof. reflexivity. Qed.

Example Split_empty : strings.Split "" "-" = [""].
Proof. reflexivity. Qed.

Example Split_four_parts :
  strings.Split "-5-2025-" "-" = [""; "5"; "2025"; ""].
Proof. reflexivity. Qed.

Example Atoi_leading_zero : strconv.Atoi "07" = (7, None).
Proof. reflexivity. Qed.

Example Atoi_plus_sign : strconv.Atoi "+2025" = (2025, None).
Proof. reflexivity. Qed.

Example Atoi_long_zeros :
  strconv.Atoi "0000000000000000000000000012" = (12, None).
Proof. vm_compute. reflexivity. Qed.

Example Atoi_max : strconv.Atoi "9223372036854775807" = (2 ^ 63 - 1, None).
Proof. vm_compute. reflexivity. Qed.

Example Atoi_above_max :
  strconv.Atoi "9223372036854775808" = (2 ^ 63 - 1, Some strconv.ErrRange).
Proof. vm_compute. reflexivity. Qed.

Example Atoi_min : strconv.Atoi "-9223372036854775808" = (- 2 ^ 63, None).
Proof. vm_compute. reflexivity. Qed.

Example Atoi_letter : strconv.Atoi "1x" = (0, Some strconv.ErrSyntax).
Proof. vm_compute. reflexivity. Qed.

Example Atoi_empty : strconv.Atoi "" = (0, Some strconv.ErrSyntax).
Proof. vm_compute. reflexivity. Qed.

Example Atoi_only_sign : strconv.Atoi "+" = (0, Some strconv.ErrSyntax).
Proof. vm_compute. reflexivity. Qed.

Example Date_year_one : time.Date 1 1 1 0 0 0 0 time.UTC = time.mkTime 0 0.
Proof. vm_compute. reflexivity. Qed.

Example Date_unix_epoch :
  time.ext (time.Date 1970 1 1 0 0 0 0 time.UTC) + time.internalToUnix = 0.
Proof. vm_compute. reflexivity. Qed.

Example Date_unix_2025 :
  time.ext (time.Date 2025 1 1 0 0 0 0 time.UTC) + time.internalToUnix
  = 1735689600.
Proof. vm_compute. reflexivity. Qed.

Example Date_month_zero :
  time.Date 2024 0 1 0 0 0 0 time.UTC = time.Date 2023 12 1 0 0 0 0 time.UTC.
Proof. vm_compute. reflexivity. Qed.

Example Year_Month_leap_march :
  time.Year (time.Date 2024 3 1 0 0 0 0 time.UTC) = 2024
  /\ time.Month (time.Date 2024 3 1 0 0 0 0 time.UTC) = 3.
Proof. vm_compute. auto. Qed.

(** ** The scenarios of the specification *)

Example scenario_C :
  exists w',
    service.GetTotalCost repository.table (window "03-2025" "03-2025")
      (world_of [sub_of 1 100 "01-2025" (Some "12-2025")])
    = Ret (Ok (models.mkTotalCostResponse 100), w').
Proof. eexists. vm_compute. reflexivity. Qed.

Example scenario_E :
  exists w',
    service.GetTotalCost repository.table (window "01-2025" "12-2025")
      (world_of [sub_of 1 100 "06-2024" (Some "03-2025");
                 sub_of 2 50 "06-2024" None])
    = Ret (Ok (models.mkTotalCostResponse 300), w').
Proof. eexists. vm_compute. reflexivity. Qed.

(** ** The theorems at concrete inputs *)

Ltac valid_month := unfold Spec.valid; cbn; lia.
Ltac order_of_months :=
  unfold Spec.in_window, Spec.le, Spec.precedes; cbn; lia.

Lemma calculateOverlapMonths_formula_witness :
  Spec.valid jan_2025 /\ Spec.valid dec_2025
  /\ Spec.valid jun_2024 /\ Spec.valid mar_2025
  /\ service.calculateOverlapMonths
       (toTime jan_2025) (toTime dec_2025) (toTime jun_2024) (toTime mar_2025)
     = 3.
Proof.
  assert (H1 : Spec.valid jan_2025) by valid_month.
  assert (H2 : Spec.valid dec_2025) by valid_month.
  assert (H3 : Spec.valid jun_2024) by valid_month.
  assert (H4 : Spec.valid mar_2025) by valid_month.
  repeat (split; [assumption|]).
  pose proof (calculateOverlapMonths_formula
                jan_2025 dec_2025 jun_2024 mar_2025 H1 H2 H3 H4) as H.
  cbv zeta in H. destruct H as [_ H].
  destruct H as [H _]; [order_of_months|]. rewrite H. reflexivity.
Defined.

Lemma open_ended_contributes_once_witness :
  Spec.in_window jan_2025 dec_2025 jul_2025
  /\ service.totalCost_step (toTime jan_2025) (toTime dec_2025) 0
       (sub_of 1 400 "07-2025" None)
     = Ret 400.
Proof.
  assert (Hin : Spec.in_window jan_2025 dec_2025 jul_2025) by order_of_months.
  split; [exact Hin|].
  destruct open_ended_contributes_once as [H _].
  destruct (H jan_2025 dec_2025 (sub_of 1 400 "07-2025" None) jul_2025 0)
    as [Hadd _];
    [valid_month | valid_month | order_of_months | reflexivity
     | exact denotes_07_2025 |].
  rewrite (Hadd Hin). reflexivity.
Defined.

Lemma total_is_sum_of_contributions_witness :
  exists w',
    service.GetTotalCost repository.table (window "01-2025" "12-2025")
      (world_of [sub_of 1 100 "06-2024" (Some "03-2025");
                 sub_of 2 50 "06-2024" None])
    = Ret (Ok (models.mkTotalCostResponse 300), w').
Proof.
  destruct total_is_sum_of_contributions as [H _].
  destruct (H _ repository.table (window "01-2025" "12-2025")
              (world_of [sub_of 1 100 "06-2024" (Some "03-2025");
                         sub_of 2 50 "06-2024" None])
              jan_2025 dec_2025
              [sub_of 2 50 "06-2024" None;
               sub_of 1 100 "06-2024" (Some "03-2025")]
              [Spec.mkInterval 50 jun_2024 Spec.OpenEnded;
               Spec.mkInterval 100 jun_2024 (Spec.Closed mar_2025)])
    as [_ [w' Hw']].
  - exact denotes_01_2025.
  - exact denotes_12_2025.
  - order_of_months.
  - vm_compute. reflexivity.
  - repeat constructor; try reflexivity;
      first [exact denotes_06_2024 | exact denotes_03_2025].
  - repeat constructor; cbn; lia.
  - vm_compute. discriminate.
  - exists w'. rewrite Hw'. reflexivity.
Defined.

Lemma GetTotalCost_validation_witness :
  service.GetTotalCost repository.table (window "2025-01" "12-2025")
    (world_of [sub_of 1 100 "06-2024" (Some "03-2025")])
  = Ret (Err service.format_error,
         world_of [sub_of 1 100 "06-2024" (Some "03-2025")])
  /\ service.GetTotalCost repository.table (window "01-2025" "12-2025")
       (world_of [sub_of 1 100 "06-2024" (Some "03-2025")])
     = aggregation repository.table (window "01-2025" "12-2025")
         (toTime jan_2025) (toTime dec_2025)
         (world_of [sub_of 1 100 "06-2024" (Some "03-2025")]).
Proof.
  split.
  - destruct (GetTotalCost_validation repository.table
                (window "2025-01" "12-2025")
                (world_of [sub_of 1 100 "06-2024" (Some "03-2025")]))
      as [H _].
    apply H. left. apply isValidDateFormat_false. reflexivity.
  - destruct (GetTotalCost_validation repository.table
                (window "01-2025" "12-2025")
                (world_of [sub_of 1 100 "06-2024" (Some "03-2025")]))
      as (_ & _ & H & _).
    apply (H jan_2025 dec_2025);
      [exact denotes_01_2025 | exact denotes_12_2025 | order_of_months].
Defined.

Lemma overlap_of_contained_window_witness :
  Spec.le mar_2025 mar_2025 /\ Spec.le jan_2025 mar_2025
  /\ Spec.le mar_2025 dec_2025
  /\ service.calculateOverlapMonths
       (toTime mar_2025) (toTime mar_2025) (toTime jan_2025) (toTime dec_2025)
     = 1.
Proof.
  assert (H1 : Spec.le mar_2025 mar_2025) by order_of_months.
  assert (H2 : Spec.le jan_2025 mar_2025) by order_of_months.
  assert (H3 : Spec.le mar_2025 dec_2025) by order_of_months.
  repeat (split; [assumption|]).
  destruct overlap_of_contained_window as [H _].
  rewrite (H mar_2025 mar_2025 jan_2025 dec_2025);
    [reflexivity | valid_month | valid_month | valid_month | valid_month
     | exact H1 | exact H2 | exact H3].
Defined.

Lemma overlap_monotone_in_window_end_witness :
  Spec.le feb_2025 dec_2025
  /\ service.calculateOverlapMonths
       (toTime jan_2025) (toTime feb_2025) (toTime jun_2024) (toTime mar_2025)
     <= service.calculateOverlapMonths
          (toTime jan_2025) (toTime dec_2025)
          (toTime jun_2024) (toTime mar_2025).
Proof.
  assert (H : Spec.le feb_2025 dec_2025) by order_of_months.
  split; [exact H|].
  apply (overlap_monotone_in_window_end
           jan_2025 jun_2024 mar_2025 feb_2025 dec_2025);
    [valid_month | valid_month | valid_month | valid_month | valid_month
     | exact H].
Defined.

Lemma parsePeriod_requires_validation_witness :
  service.isValidDateFormat "07-2025" = true
  /\ exists c, service.parsePeriod "07-2025" = Ret (toTime c, None).
Proof.
  assert (H : service.isValidDateFormat "07-2025" = true) by reflexivity.
  split; [exact H|].
  destruct parsePeriod_requires_validation as [Hv _].
  destruct (Hv "07-2025" H) as (c & p0 & p1 & _ & _ & _ & _ & Hp).
  exists c. exact Hp.
Defined.

Lemma After_is_calendar_order_witness :
  Spec.valid may_2025 /\ Spec.valid jan_2025
  /\ time.After (toTime may_2025) (toTime jan_2025) = true.
Proof.
  assert (H1 : Spec.valid may_2025) by valid_month.
  assert (H2 : Spec.valid jan_2025) by valid_month.
  repeat (split; [assumption|]).
  destruct (After_is_calendar_order may_2025 jan_2025 H1 H2) as [H _].
  apply H. right. cbn. lia.
Defined.

(** * The rest of the service, the handlers and the query *)

(** ** The remaining service methods *)

Lemma isValidDateFormat_empty : service.isValidDateFormat "" = false.
Proof. reflexivity. Qed.

(** What [service.GetByID] makes of each answer of the repository. *)
Lemma GetByID_cases {DB} (repo : repository.SubscriptionRepository DB) id w :
  match repository.GetByID repo id (db w) with
  | Ok sub =>
      service.GetByID repo id w = Ret (Ok sub, emit (CallGetByID id) w)
  | Err ErrNoRows =>
      service.GetByID repo id w
      = Ret (Err (Errorf "not found"), emit (CallGetByID id) w)
  | Err e =>
      service.GetByID repo id w
      = Ret (Err e, emit (LogError "Failed to get subscription")
                      (emit (CallGetByID id) w))
  end.
Proof.
  unfold service.GetByID. cbn [db emit].
  destruct (repository.GetByID repo id (db w)) as [sub|[msg| |msg]];
    reflexivity.
Qed.

Lemma GetByID_hides_ErrNoRows {DB}
    (repo : repository.SubscriptionRepository DB) id w e w' :
  service.GetByID repo id w = Ret (Err e, w') ->
  errors_Is e ErrNoRows = false.
Proof.
  pose proof (GetByID_cases repo id w) as H.
  destruct (repository.GetByID repo id (db w)) as [sub|[msg| |msg]];
    rewrite H; intros [= <- _]; reflexivity.
Qed.

(** X1: [GetSubscription] always answers, and never with 404: the service
    turns the repository's [sql.ErrNoRows] into a fresh "not found" error,
    which the handler's [errors.Is(err, sql.ErrNoRows)] does not recognise,
    so a missing subscription is answered 500 "Failed to get subscription"
    and nothing is logged for it. *)
Theorem GetSubscription_never_answers_404 {DB} (repo : repository.CRUD DB)
    (uuid_Parse : string -> option models.UUID) (idStr : string)
    (w : World DB) :
  exists response w',
    handlers.GetSubscription repo uuid_Parse idStr w = Ret (response, w')
    /\ handlers.status response <> http.StatusNotFound
    /\ (forall id,
           uuid_Parse idStr = Some id ->
           repository.GetByID (repository.reads repo) id (db w)
           = Err ErrNoRows ->
           service.GetByID (repository.reads repo) id w
           = Ret (Err (Errorf "not found"), emit (CallGetByID id) w)
           /\ response
              = handlers.mkResponse http.StatusInternalServerError
                  (handlers.ErrorBody "Failed to get subscription")
           /\ w' = emit (CallGetByID id) w).
Proof.
  unfold handlers.GetSubscription.
  destruct (uuid_Parse idStr) as [id|].
  - pose proof (GetByID_cases (repository.reads repo) id w) as H.
    destruct (repository.GetByID (repository.reads repo) id (db w))
      as [sub|[msg| |msg]] eqn:Hg; rewrite H; cbn [exec_bind];
      do 2 eexists; (split; [reflexivity|]); (split; [discriminate|]);
      intros ? [= <-]; rewrite Hg; try discriminate.
    intros _. split; [exact H | split; reflexivity].
  - do 2 eexists. split; [reflexivity|]. split; [discriminate|].
    discriminate.
Qed.



(** X3: [GetSubscription] and [ListSubscriptions] answer 200, 400 or 500
    and [DeleteSubscription] 204, 400 or 500, whatever the repository
    does; none of them answers 404. *)
Theorem service_errors_answered_500 {DB} (repo : repository.CRUD DB)
    (uuid_Parse : string -> option models.UUID) (w : World DB) :
  (forall idStr response w',
      handlers.GetSubscription repo uuid_Parse idStr w = Ret (response, w') ->
      handlers.status response = http.StatusOK
      \/ handlers.status response = http.StatusBadRequest
      \/ handlers.status response = http.StatusInternalServerError)
  /\ (forall userIDStr serviceName response w',
         handlers.ListSubscriptions repo uuid_Parse userIDStr serviceName w
         = Ret (response, w') ->
         handlers.status response = http.StatusOK
         \/ handlers.status response = http.StatusBadRequest
         \/ handlers.status response = http.StatusInternalServerError)
  /\ (forall idStr response w',
         handlers.DeleteSubscription repo uuid_Parse idStr w
         = Ret (response, w') ->
         handlers.status response = http.StatusNoContent
         \/ handlers.status response = http.StatusBadRequest
         \/ handlers.status response = http.StatusInternalServerError).
Proof.
  split; [|split].
  - intros idStr response w'. unfold handlers.GetSubscription.
    destruct (uuid_Parse idStr) as [id|]; [|intros [= <- _]; cbn; auto].
    destruct (service.GetByID (repository.reads repo) id w)
      as [[[sub|e] w2]|p] eqn:Hs; cbn [exec_bind]; [| |discriminate].
    + intros [= <- _]; cbn; auto.
    + rewrite (GetByID_hides_ErrNoRows _ _ _ _ _ Hs).
      intros [= <- _]; cbn; auto.
  - intros userIDStr serviceName response w'.
    unfold handlers.ListSubscriptions.
    assert (Hlist : forall u n,
               (let* (r, w0) := service.List (repository.reads repo) u n w in
                match r with
                | Err _ =>
                    Ret (handlers.mkResponse http.StatusInternalServerError
                           (handlers.ErrorBody "Failed to list subscriptions"),
                         emit (LogError "Failed to list subscriptions") w0)
                | Ok subscriptions =>
                    Ret (handlers.mkResponse http.StatusOK
                           (handlers.SubscriptionsBody subscriptions), w0)
                end) = Ret (response, w') ->
               handlers.status response = http.StatusOK
               \/ handlers.status response = http.StatusBadRequest
               \/ handlers.status response = http.StatusInternalServerError).
    { intros u n.
      destruct (service.List (repository.reads repo) u n w)
        as [[[subs|e] w2]|p]; cbn [exec_bind]; [| |discriminate];
        intros [= <- _]; cbn; auto. }
    destruct (negb (userIDStr =? "")%string).
    + destruct (uuid_Parse userIDStr) as [u|].
      * apply Hlist.
      * intros [= <- _]; cbn; auto.
    + apply Hlist.
  - intros idStr response w'. unfold handlers.DeleteSubscription.
    destruct (uuid_Parse idStr) as [id|]; [|intros [= <- _]; cbn; auto].
    destruct (service.Delete repo id w) as [[[e|] w2]|p];
      cbn [exec_bind]; [| |discriminate]; intros [= <- _]; cbn; auto.
Qed.

(** X4: [Create] checks the dates before it writes: a start date the
    validator rejects, or an end date that is present and rejected (the
    empty string among them, which [Update] lets through), gives the
    matching error and leaves the world untouched; a record is returned
    only when both dates passed, it carries the fresh id and the request's
    end date, and it is the record the repository was handed and
    accepted. *)
Theorem Create_validates_dates {DB} (repo : repository.CRUD DB)
    (req : models.SubscriptionCreate) (fresh : service.Fresh) (w : World DB) :
  (service.isValidDateFormat (models.new_StartDate req) = false ->
   service.Create repo req fresh w
   = Ret (Err (Errorf "start_date must be in MM-YYYY format"), w))
  /\ (forall d,
         service.isValidDateFormat (models.new_StartDate req) = true ->
         models.new_EndDate req = Some d ->
         service.isValidDateFormat d = false ->
         service.Create repo req fresh w
         = Ret (Err (Errorf "end_date must be in MM-YYYY format"), w))
  /\ (models.new_EndDate req = Some EmptyString ->
      exists msg, service.Create repo req fresh w = Ret (Err (Errorf msg), w))
  /\ (forall sub w',
         service.Create repo req fresh w = Ret (Ok sub, w') ->
         well_dated sub = true
         /\ models.ID sub = service.fresh_ID fresh
         /\ models.EndDate sub = models.new_EndDate req
         /\ repository.Create repo sub (db w) = (db w', None)
         /\ trace w' = trace w ++ [LogInfo "Subscription created"]).
Proof.
  unfold service.Create.
  split; [|split; [|split]].
  - intros ->. reflexivity.
  - intros d -> -> ->. reflexivity.
  - intros ->. rewrite isValidDateFormat_empty.
    destruct (service.isValidDateFormat (models.new_StartDate req));
      eexists; reflexivity.
  - intros sub w'.
    destruct (service.isValidDateFormat (models.new_StartDate req)) eqn:Hs;
      [|discriminate].
    cbn [negb].
    destruct (models.new_EndDate req) as [d|] eqn:He.
    + destruct (service.isValidDateFormat d) eqn:Hd; [|discriminate].
      cbn [negb].
      match goal with
      | |- context [repository.Create repo ?s (db w)] =>
          destruct (repository.Create repo s (db w)) as [db' [err|]] eqn:Hc
      end; [discriminate|].
      intros [= <- <-]. unfold well_dated. cbn. rewrite Hs, Hd.
      repeat split; auto.
    + match goal with
      | |- context [repository.Create repo ?s (db w)] =>
          destruct (repository.Create repo s (db w)) as [db' [err|]] eqn:Hc
      end; [discriminate|].
      intros [= <- <-]. unfold well_dated. cbn. rewrite Hs.
      repeat split; auto.
Qed.


(** What [service.Update] does once its two checks have passed. *)
Lemma Update_validated {DB} (repo : repository.SubscriptionRepository DB)
    id req w :
  (forall d, models.upd_StartDate req = Some d ->
             service.isValidDateFormat d = true) ->
  (forall d, models.upd_EndDate req = Some d ->
             d = EmptyString \/ service.isValidDateFormat d = true) ->
  service.Update repo id req w
  = let w := emit (CallGetByID id) w in
    match repository.GetByID repo id (db w) with
    | Err e => Ret (Err e, w)
    | Ok existing =>
        let existing :=
          models.mkSubscription
            (models.ID existing)
            (default (models.ServiceName existing) (models.upd_ServiceName req))
            (default (models.Price existing) (models.upd_Price req))
            (default (models.UserID existing) (models.upd_UserID req))
            (default (models.StartDate existing) (models.upd_StartDate req))
            (match models.upd_EndDate req with
             | Some d => Some d
             | None => models.EndDate existing
             end)
            (models.CreatedAt existing)
            (now w) in
        let w := emit (CallUpdate existing) w in
        match repository.Update repo existing (db w) with
        | (db', Some e) =>
            Ret (Err e,
                 emit (LogError "Failed to update subscription")
                      (mkWorld db' (now w) (trace w)))
        | (db', None) =>
            Ret (Ok existing,
                 emit (LogInfo "Subscription updated")
                      (mkWorld db' (now w) (trace w)))
        end
    end.
Proof.
  intros Hs He. unfold service.Update.
  destruct (models.upd_StartDate req) as [ds|].
  - rewrite (Hs ds eq_refl). cbn [negb].
    destruct (models.upd_EndDate req) as [de|]; [|reflexivity].
    destruct (He de eq_refl) as [-> | ->]; [reflexivity|].
    rewrite andb_false_r. reflexivity.
  - destruct (models.upd_EndDate req) as [de|]; [|reflexivity].
    destruct (He de eq_refl) as [-> | ->]; [reflexivity|].
    rewrite andb_false_r. reflexivity.
Qed.

(** A rejected [Update] leaves the world as it was. *)
Lemma Update_rejected {DB} (repo : repository.SubscriptionRepository DB)
    id req w :
  (exists d, models.upd_StartDate req = Some d
             /\ service.isValidDateFormat d = false)
  \/ (exists d, models.upd_EndDate req = Some d /\ d <> EmptyString
                /\ service.isValidDateFormat d = false) ->
  exists msg, service.Update repo id req w = Ret (Err (Errorf msg), w).
Proof.
  unfold service.Update.
  intros [(d & -> & ->)|(d & -> & Hd & ->)].
  - eexists; reflexivity.
  - apply String.eqb_neq in Hd. rewrite Hd. cbn [negb andb].
    destruct (match models.upd_StartDate req with
              | Some d0 => negb (service.isValidDateFormat d0)
              | None => false
              end); eexists; reflexivity.
Qed.

(** The two checks of [Update] either pass or reject. *)
Lemma Update_checks req :
  ((forall d, models.upd_StartDate req = Some d ->
              service.isValidDateFormat d = true)
   /\ (forall d, models.upd_EndDate req = Some d ->
                 d = EmptyString \/ service.isValidDateFormat d = true))
  \/ ((exists d, models.upd_StartDate req = Some d
                 /\ service.isValidDateFormat d = false)
      \/ (exists d, models.upd_EndDate req = Some d /\ d <> EmptyString
                    /\ service.isValidDateFormat d = false)).
Proof.
  destruct (models.upd_StartDate req) as [ds|].
  - destruct (service.isValidDateFormat ds) eqn:Hs;
      [|right; left; eauto].
    destruct (models.upd_EndDate req) as [de|].
    + destruct (String.eqb_spec de ""); [subst|].
      * left. split; intros ? [= <-]; auto.
      * destruct (service.isValidDateFormat de) eqn:Hd.
        -- left. split; intros ? [= <-]; auto.
        -- right. right. eauto.
    + left. split; [intros ? [= <-]; auto | discriminate].
  - destruct (models.upd_EndDate req) as [de|].
    + destruct (String.eqb_spec de ""); [subst|].
      * left. split; [discriminate | intros ? [= <-]; auto].
      * destruct (service.isValidDateFormat de) eqn:Hd.
        -- left. split; [discriminate | intros ? [= <-]; auto].
        -- right. right. eauto.
    + left. split; discriminate.
Qed.

(** X5: [UpdateSubscription] for an id the repository has no row for
    answers 400 (not 404), never calls [Update] and leaves the store as it
    was; when the body passes the date checks, the message is the
    driver's "sql: no rows in result set" and only the [GetByID] call is
    added to the trace. *)
Theorem UpdateSubscription_missing_id {DB} (repo : repository.CRUD DB)
    (uuid_Parse : string -> option models.UUID) idStr id req (w : World DB) :
  uuid_Parse idStr = Some id ->
  repository.GetByID (repository.reads repo) id (db w) = Err ErrNoRows ->
  exists msg w',
    handlers.UpdateSubscription repo uuid_Parse idStr (Ok req) w
    = Ret (handlers.mkResponse http.StatusBadRequest (handlers.ErrorBody msg),
           w')
    /\ db w' = db w
    /\ (forall s, In (CallUpdate s) (trace w') -> In (CallUpdate s) (trace w))
    /\ ((forall d, models.upd_StartDate req = Some d ->
                   service.isValidDateFormat d = true) ->
        (forall d, models.upd_EndDate req = Some d ->
                   d = EmptyString \/ service.isValidDateFormat d = true) ->
        msg = "sql: no rows in result set"
        /\ w' = emit (CallGetByID id) w).
Proof.
  intros Hp Hg. unfold handlers.UpdateSubscription. rewrite Hp.
  destruct (Update_checks req) as [[Hs He]|Hbad].
  - rewrite (Update_validated _ _ _ _ Hs He). cbn [db emit]. rewrite Hg.
    cbn [exec_bind Error].
    do 2 eexists. split; [reflexivity|]. split; [reflexivity|].
    split.
    + cbn [trace emit]. intros s [Hin|Hin]%in_app_iff; [exact Hin|].
      destruct Hin as [Hin|[]]. discriminate.
    + intros _ _. split; reflexivity.
  - destruct (Update_rejected (repository.reads repo) id req w Hbad)
      as [msg Hr].
    rewrite Hr. cbn [exec_bind Error].
    do 2 eexists. split; [reflexivity|]. split; [reflexivity|].
    split; [auto|].
    intros Hs He. exfalso.
    destruct Hbad as [(d & Hd & Hv)|(d & Hd & Hn & Hv)].
    + rewrite (Hs d Hd) in Hv. discriminate.
    + destruct (He d Hd) as [-> | Hv']; [contradiction|].
      rewrite Hv' in Hv. discriminate.
Qed.


(** X6: a successful [Update] returns a record with the id and the
    creation time of the existing row and the current time as update
    time; an end date that was set cannot be removed; if the existing
    dates were valid and the request does not set the end date to the empty
    string, the new dates are valid; the returned record is the one handed
    to the repository, between the [GetByID] call and the log line. *)
Theorem Update_keeps_identity {DB}
    (repo : repository.SubscriptionRepository DB) id req (w : World DB)
    existing sub w' :
  repository.GetByID repo id (db w) = Ok existing ->
  service.Update repo id req w = Ret (Ok sub, w') ->
  models.ID sub = models.ID existing
  /\ models.CreatedAt sub = models.CreatedAt existing
  /\ models.UpdatedAt sub = now w
  /\ (models.EndDate existing <> None -> models.EndDate sub <> None)
  /\ (well_dated existing = true ->
      models.upd_EndDate req <> Some EmptyString ->
      well_dated sub = true)
  /\ repository.Update repo sub (db w) = (db w', None)
  /\ trace w' = trace w ++ [CallGetByID id; CallUpdate sub;
                            LogInfo "Subscription updated"].
Proof.
  intros Hg.
  destruct (Update_checks req) as [[Hs He]|Hbad].
  - rewrite (Update_validated _ _ _ _ Hs He). cbn [db emit now trace].
    rewrite Hg.
    match goal with
    | |- context [repository.Update repo ?s (db w)] =>
        destruct (repository.Update repo s (db w)) as [db' [e|]] eqn:Hu
    end; [discriminate|].
    intros [= <- <-]. cbn.
    repeat split; auto.
    + destruct (models.upd_EndDate req); [discriminate | auto].
    + unfold well_dated. cbn. intros [H1 H2]%andb_true_iff Hne.
      apply andb_true_iff. split.
      * destruct (models.upd_StartDate req) as [d|] eqn:Hd; cbn; auto.
      * destruct (models.upd_EndDate req) as [d|] eqn:Hd; cbn; auto.
        destruct (He d eq_refl) as [-> | Hv]; [contradiction | exact Hv].
    + rewrite <- !app_assoc. reflexivity.
  - destruct (Update_rejected repo id req w Hbad) as [msg Hr].
    rewrite Hr. discriminate.
Qed.

(** ** Reading stored dates *)

Lemma free_of_dec sep s : Spec.free_of sep s \/ ~ Spec.free_of sep s.
Proof.
  induction s as [|c s IH]; cbn; [left; exact I|].
  destruct (Ascii.eqb_spec c sep) as [->|Hne].
  - right. intros [H _]. contradiction.
  - destruct IH as [IH|IH]; [left; auto | right; intros [_ H]; auto].
Qed.

Lemma Split_separated s sep :
  ~ Spec.free_of sep s ->
  exists p0 p1 ps, strings.Split s sep = p0 :: p1 :: ps.
Proof.
  induction s as [|c s IH]; cbn; [intros H; destruct (H I)|].
  intros H. destruct (Ascii.eqb_spec c sep) as [->|Hne].
  - destruct (strings.Split s sep) as [|p1 ps] eqn:Hs.
    + destruct (Split_nonempty s sep Hs).
    + eauto.
  - destruct IH as (p0 & p1 & ps & ->); [intros Hf; apply H; auto|].
    eauto.
Qed.

Lemma parsePeriod_separated s :
  ~ Spec.free_of "-" s -> exists t, service.parsePeriod s = Ret (t, None).
Proof.
  intros H. destruct (Split_separated s "-" H) as (p0 & p1 & ps & Hs).
  unfold service.parsePeriod. rewrite Hs. unfold service.index.
  change ((p0 :: p1 :: ps) !! Z.to_nat 0) with (Some p0).
  change ((p0 :: p1 :: ps) !! Z.to_nat 1) with (Some p1).
  cbn [exec_bind].
  destruct (strconv.Atoi p0) as [m e0], (strconv.Atoi p1) as [y e1].
  eexists. reflexivity.
Qed.

Lemma separated_dec sub : separated sub \/ ~ separated sub.
Proof.
  unfold separated.
  destruct (free_of_dec "-" (models.StartDate sub)) as [Hs|Hs];
    [right; intros [H _]; auto|].
  destruct (models.EndDate sub) as [e|].
  - destruct (free_of_dec "-" e) as [He|He].
    + right. intros [_ H]. exact (H e eq_refl He).
    + left. split; [exact Hs | intros ? [= <-]; exact He].
  - left. split; [exact Hs | discriminate].
Qed.

Lemma wrap_is_int z : GoInt.is_int (GoInt.wrap z).
Proof.
  unfold GoInt.is_int, GoInt.wrap, GoInt.minInt, GoInt.maxInt.
  pose proof (Z.mod_pos_bound (z + 2 ^ 63) (2 ^ 64) ltac:(lia)). lia.
Qed.

(** One turn of the loop either panics on a date without separator, the
    same way for every running total, or adds an amount that does not
    depend on the running total. *)
Lemma totalCost_step_shape startPeriod endPeriod sub :
  (~ separated sub
   /\ forall acc,
       service.totalCost_step startPeriod endPeriod acc sub
       = Panic (IndexOutOfRange 1 1))
  \/ (separated sub
      /\ exists d, forall acc,
          GoInt.is_int acc ->
          service.totalCost_step startPeriod endPeriod acc sub
          = Ret (GoInt.wrap (acc + d))).
Proof.
  unfold service.totalCost_step, separated.
  destruct (free_of_dec "-" (models.StartDate sub)) as [Hs|Hs].
  - left. split; [intros [H _]; auto|]. intros acc.
    rewrite (parsePeriod_no_separator _ Hs). reflexivity.
  - destruct (parsePeriod_separated _ Hs) as [subStart Hp]. rewrite Hp.
    cbn [exec_bind].
    destruct (models.EndDate sub) as [e|].
    + destruct (free_of_dec "-" e) as [He|He].
      * left. split; [intros [_ H]; exact (H e eq_refl He)|]. intros acc.
        rewrite (parsePeriod_no_separator _ He). reflexivity.
      * destruct (parsePeriod_separated _ He) as [subEnd Hq]. rewrite Hq.
        cbn [exec_bind]. right.
        split; [split; [exact Hs | intros ? [= <-]; exact He]|].
        eexists. intros acc _. unfold GoInt.add. reflexivity.
    + right. split; [split; [exact Hs | discriminate]|].
      destruct (negb (time.Before subStart startPeriod)
                && negb (time.After subStart endPeriod)).
      * eexists. intros acc _. unfold GoInt.add. reflexivity.
      * exists 0. intros acc Hacc. rewrite Z.add_0_r, wrap_id by exact Hacc.
        reflexivity.
Qed.

Lemma totalCost_loop_shape startPeriod endPeriod subs :
  (~ Forall separated subs
   /\ forall acc,
       GoInt.is_int acc ->
       service.totalCost_loop startPeriod endPeriod subs acc
       = Panic (IndexOutOfRange 1 1))
  \/ (Forall separated subs
      /\ exists d, forall acc,
          GoInt.is_int acc ->
          service.totalCost_loop startPeriod endPeriod subs acc
          = Ret (GoInt.wrap (acc + d))).
Proof.
  induction subs as [|sub subs IH]; cbn [service.totalCost_loop].
  - right. split; [constructor|]. exists 0. intros acc Hacc.
    rewrite Z.add_0_r, wrap_id by exact Hacc. reflexivity.
  - destruct (totalCost_step_shape startPeriod endPeriod sub)
      as [[Hn Hstep]|[Hsep [d Hstep]]].
    + left. split; [intros H; inversion H; auto|]. intros acc _.
      rewrite Hstep. reflexivity.
    + destruct IH as [[Hn Hloop]|[Hall [d' Hloop]]].
      * left. split; [intros H; inversion H; auto|]. intros acc Hacc.
        rewrite (Hstep acc Hacc). cbn [exec_bind].
        apply Hloop, wrap_is_int.
      * right. split; [constructor; assumption|]. exists (d + d').
        intros acc Hacc. rewrite (Hstep acc Hacc). cbn [exec_bind].
        rewrite (Hloop _ (wrap_is_int _)), wrap_add_l.
        replace (acc + (d + d')) with (acc + d + d') by lia. reflexivity.
Qed.

Lemma zero_is_int : GoInt.is_int 0.
Proof. unfold GoInt.is_int, GoInt.minInt, GoInt.maxInt. lia. Qed.

Lemma well_dated_separated sub : well_dated sub = true -> separated sub.
Proof.
  unfold well_dated, separated. intros [Hs He]%andb_true_iff. split.
  - intros Hf. rewrite (isValidDateFormat_no_separator _ Hf) in Hs.
    discriminate.
  - intros e Heq Hf. rewrite Heq in He.
    rewrite (isValidDateFormat_no_separator _ Hf) in He. discriminate.
Qed.

(** X7: the aggregation loop of [GetTotalCost] returns a total exactly
    when every listed record has a separator in its start date and in its
    end date, if any; otherwise it panics with index 1 out of range for
    length 1, whatever else the list holds.  Records whose dates the
    validator accepts are of the first kind. *)
Theorem totalCost_loop_panics_iff startPeriod endPeriod subs :
  (Forall separated subs ->
   exists total,
     service.totalCost_loop startPeriod endPeriod subs 0 = Ret total)
  /\ (~ Forall separated subs ->
      service.totalCost_loop startPeriod endPeriod subs 0
      = Panic (IndexOutOfRange 1 1))
  /\ (Forall (fun sub => well_dated sub = true) subs ->
      Forall separated subs).
Proof.
  destruct (totalCost_loop_shape startPeriod endPeriod subs)
    as [[Hn Hloop]|[Hall [d Hloop]]].
  - split; [intros H; contradiction|].
    split; [intros _; apply Hloop, zero_is_int|].
    intros H. exfalso. apply Hn.
    eapply Forall_impl; [exact H | apply well_dated_separated].
  - split; [intros _; eexists; apply Hloop, zero_is_int|].
    split; [intros H; contradiction | intros _; exact Hall].
Qed.

(** X8: the outcome of the aggregation loop, total or panic, does not
    depend on the order in which the repository lists the records. *)
Theorem totalCost_loop_order_independent startPeriod endPeriod subs subs' :
  Permutation subs subs' ->
  service.totalCost_loop startPeriod endPeriod subs 0
  = service.totalCost_loop startPeriod endPeriod subs' 0.
Proof.
  intros Hperm.
  enough (H : forall acc, GoInt.is_int acc ->
                service.totalCost_loop startPeriod endPeriod subs acc
                = service.totalCost_loop startPeriod endPeriod subs' acc)
    by (apply H, zero_is_int).
  induction Hperm as [|x l l' _ IH|x y l|l l' l'' _ IH1 _ IH2];
    intros acc Hacc; cbn [service.totalCost_loop].
  - reflexivity.
  - destruct (totalCost_step_shape startPeriod endPeriod x)
      as [[_ Hx]|[_ [d Hx]]].
    + rewrite Hx. reflexivity.
    + rewrite (Hx acc Hacc). cbn [exec_bind]. apply IH, wrap_is_int.
  - destruct (totalCost_step_shape startPeriod endPeriod x)
      as [[_ Hx]|[_ [dx Hx]]],
      (totalCost_step_shape startPeriod endPeriod y)
      as [[_ Hy]|[_ [dy Hy]]].
    + rewrite Hx, Hy. reflexivity.
    + rewrite Hx, (Hy acc Hacc). cbn [exec_bind]. rewrite Hx. reflexivity.
    + rewrite Hy, (Hx acc Hacc). cbn [exec_bind]. rewrite Hy. reflexivity.
    + rewrite (Hx acc Hacc), (Hy acc Hacc). cbn [exec_bind].
      rewrite (Hx _ (wrap_is_int _)), (Hy _ (wrap_is_int _)).
      rewrite !wrap_add_l.
      replace (acc + dy + dx) with (acc + dx + dy) by lia. reflexivity.
  - rewrite (IH1 acc Hacc). apply IH2, Hacc.
Qed.

(** ** The query of [List] *)

Lemma List_query_cases (filters : gmap string (option FilterValue)) :
  repository.List_query filters
  = (repository.select_all +:+ conditions 1 (present filters).*1,
     (present filters).*2).
Proof.
  unfold repository.List_query, present. cbn [omap list_omap].
  destruct (filters !! "user_id") as [[u|]|];
    destruct (filters !! "service_name") as [[n|]|]; reflexivity.
Qed.

Lemma present_insert_other k v (filters : gmap string (option FilterValue)) :
  k <> "user_id" -> k <> "service_name" ->
  present (<[k := v]> filters) = present filters.
Proof.
  intros H1 H2. unfold present. cbn [omap list_omap].
  rewrite !lookup_insert_ne by congruence. reflexivity.
Qed.

Lemma present_insert_nil k (filters : gmap string (option FilterValue)) :
  present (<[k := None]> filters) = present (delete k filters).
Proof.
  unfold present. cbn [omap list_omap].
  destruct (decide (k = "user_id")) as [E1|H1];
    destruct (decide (k = "service_name")) as [E2|H2]; try subst k;
    try discriminate;
    repeat first
      [ rewrite lookup_insert_eq | rewrite lookup_delete_eq
      | rewrite lookup_insert_ne by congruence
      | rewrite lookup_delete_ne by congruence ];
    reflexivity.
Qed.

(** X9: the query [List] builds is the fixed SELECT followed by one
    condition for each of [user_id] and [service_name] that is present
    with a non-nil value, in this order, with placeholders numbered from
    $1 and the values as arguments in the same order; other keys are
    ignored, a nil value counts as absent, and the text does not depend on
    the values. *)
Theorem List_query_placeholders (filters : gmap string (option FilterValue)) :
  repository.List_query filters
  = (repository.select_all +:+ conditions 1 (present filters).*1,
     (present filters).*2)
  /\ (forall k v,
         k <> "user_id" -> k <> "service_name" ->
         repository.List_query (<[k := v]> filters)
         = repository.List_query filters)
  /\ (forall k,
         repository.List_query (<[k := None]> filters)
         = repository.List_query (delete k filters))
  /\ (forall filters',
         (present filters).*1 = (present filters').*1 ->
         (repository.List_query filters).1
         = (repository.List_query filters').1)
  /\ (forall u n,
         repository.List_query
           (<["service_name" := Some (FString n)]>
              (<["user_id" := Some (FUUID u)]> ∅))
         = (repository.select_all
              +:+ " AND user_id = $1 AND service_name = $2",
            [FUUID u; FString n]))
  /\ (forall n,
         repository.List_query (<["service_name" := Some (FString n)]> ∅)
         = (repository.select_all +:+ " AND service_name = $1",
            [FString n])).
Proof.
  split; [apply List_query_cases|]. split; [|split; [|split; [|split]]];
    [| | |intros u n; reflexivity|intros n; reflexivity].
  - intros k v H1 H2.
    rewrite !List_query_cases, present_insert_other by assumption.
    reflexivity.
  - intros k. rewrite !List_query_cases, present_insert_nil. reflexivity.
  - intros filters' H. rewrite !List_query_cases. cbn [fst]. rewrite H.
    reflexivity.
Qed.


(** ** Bounds of the overlap *)

Lemma le_index a b :
  Spec.valid a -> Spec.valid b ->
  (Spec.le a b <-> month_index a <= month_index b).
Proof.
  intros Ha Hb. unfold Spec.le. rewrite (precedes_index b a Hb Ha). lia.
Qed.

(** X10: on valid months the overlap lies between 0 and 97200, is at most
    the length of the window and at most the length of the subscription
    interval, and is 0 when either interval is reversed or the two are
    disjoint. *)
Theorem calculateOverlapMonths_bounds ws we ss se :
  Spec.valid ws -> Spec.valid we -> Spec.valid ss -> Spec.valid se ->
  let n := service.calculateOverlapMonths
             (toTime ws) (toTime we) (toTime ss) (toTime se) in
  0 <= n <= 97200
  /\ (Spec.le ws we -> n <= Spec.span ws we)
  /\ (Spec.le ss se -> n <= Spec.span ss se)
  /\ (Spec.precedes se ss -> n = 0)
  /\ (Spec.precedes we ws -> n = 0)
  /\ (Spec.precedes we ss -> n = 0)
  /\ (Spec.precedes se ws -> n = 0).
Proof.
  intros Hws Hwe Hss Hse n. subst n.
  rewrite calculateOverlapMonths_toTime, overlapMonths_index by assumption.
  rewrite !le_index, !precedes_index, !span_index by assumption.
  unfold Spec.valid, month_index in *. lia.
Qed.

(** ** Listing and aggregating *)

(** X11: for a valid window, [GetTotalCost] aggregates exactly the records
    the service's [List] returns for the same user and service name in
    the same world. *)
Theorem GetTotalCost_aggregates_what_List_returns {DB}
    (repo : repository.SubscriptionRepository DB)
    userID serviceName startPeriod endPeriod cs ce (w : World DB) subs w1 :
  service.List repo userID serviceName w = Ret (Ok subs, w1) ->
  Spec.denotes startPeriod cs ->
  Spec.denotes endPeriod ce ->
  Spec.le cs ce ->
  service.GetTotalCost repo
    (models.mkTotalCostRequest userID serviceName startPeriod endPeriod) w
  = let* totalCost :=
      service.totalCost_loop (toTime cs) (toTime ce) subs 0 in
    Ret (Ok (models.mkTotalCostResponse totalCost),
         emit (LogInfo "Total cost calculated") w1).
Proof.
  intros Hlist Hs He Hle.
  rewrite (GetTotalCost_parsed repo _ w cs ce) by assumption.
  apply le_spec in Hle. rewrite Hle.
  revert Hlist. unfold service.List, aggregation, requested_filters.
  cbn [models.req_UserID models.req_ServiceName db emit].
  match goal with
  | |- context [repository.List repo ?f (db w)] =>
      destruct (repository.List repo f (db w)) as [l|e]
  end; [|discriminate].
  intros [= <- <-]. reflexivity.
Qed.

(** ** Sequences of requests *)

Section Rows.

Context {DB : Type} (repo : repository.CRUD DB).
Context (row : DB -> models.Subscription -> Prop).
Context (uuid_Parse : string -> option models.UUID).
Hypothesis rows : repository.Rows repo row.

Lemma GetTotalCost_returns req (w : World DB) :
  well_dated_rows row (db w) ->
  exists r w',
    service.GetTotalCost (repository.reads repo) req w = Ret (r, w')
    /\ db w' = db w.
Proof.
  intros Hdb.
  destruct (service.isValidDateFormat (models.StartPeriod req)) eqn:Hs.
  2:{ apply isValidDateFormat_false in Hs.
      rewrite (GetTotalCost_bad_format _ req w (or_introl Hs)). eauto. }
  destruct (service.isValidDateFormat (models.EndPeriod req)) eqn:He.
  2:{ apply isValidDateFormat_false in He.
      rewrite (GetTotalCost_bad_format _ req w (or_intror He)). eauto. }
  apply isValidDateFormat_spec in Hs as [cs Hs].
  apply isValidDateFormat_spec in He as [ce He].
  rewrite (GetTotalCost_parsed _ req w cs ce Hs He).
  destruct (Spec.precedesb ce cs); [eauto|].
  unfold aggregation. cbn [db emit].
  destruct (repository.List (repository.reads repo) (requested_filters req)
              (db w)) as [subs|e] eqn:Hl; [|eauto].
  pose proof (repository.List_rows _ _ rows _ _ _ Hl) as Hsubs.
  destruct (totalCost_loop_shape (toTime cs) (toTime ce) subs)
    as [[Hn _]|[_ [d Hloop]]].
  - exfalso. apply Hn.
    eapply Forall_impl; [exact Hsubs|].
    intros sub Hsub. apply well_dated_separated, Hdb, Hsub.
  - rewrite (Hloop 0 zero_is_int). cbn [exec_bind]. eauto.
Qed.

Lemma Create_keeps_well_dated req fresh (w : World DB) :
  well_dated_rows row (db w) ->
  exists r w',
    service.Create repo req fresh w = Ret (r, w')
    /\ well_dated_rows row (db w').
Proof.
  intros Hdb. unfold service.Create.
  destruct (service.isValidDateFormat (models.new_StartDate req)) eqn:Hs;
    cbn [negb]; [|eauto].
  assert (Hrun : forall sub,
             well_dated sub = true ->
             exists r w',
               match repository.Create repo sub (db w) with
               | (db', Some err) =>
                   Ret (Err err,
                        emit (LogError "Failed to create subscription")
                             (mkWorld db' (now w) (trace w)))
               | (db', None) =>
                   Ret (Ok sub,
                        emit (LogInfo "Subscription created")
                             (mkWorld db' (now w) (trace w)))
               end = Ret (r, w') /\ well_dated_rows row (db w')).
  { intros sub Hsub.
    destruct (repository.Create repo sub (db w)) as [db' err] eqn:Hc.
    assert (Hdb' : well_dated_rows row db').
    { intros s Hrow.
      destruct (repository.Create_rows _ _ rows _ _ _ _ _ Hc Hrow)
        as [Hold | ->]; [exact (Hdb s Hold) | exact Hsub]. }
    destruct err; eauto. }
  destruct (models.new_EndDate req) as [d|] eqn:He.
  - destruct (service.isValidDateFormat d) eqn:Hd; cbn [negb]; [|eauto].
    apply Hrun. unfold well_dated. cbn. rewrite Hs, Hd. reflexivity.
  - apply Hrun. unfold well_dated. cbn. rewrite Hs. reflexivity.
Qed.

Lemma Update_keeps_well_dated id req (w : World DB) :
  well_dated_rows row (db w) ->
  models.upd_EndDate req <> Some EmptyString ->
  exists r w',
    service.Update (repository.reads repo) id req w = Ret (r, w')
    /\ well_dated_rows row (db w').
Proof.
  intros Hdb Hne.
  destruct (Update_checks req) as [[Hs He]|Hbad].
  2:{ destruct (Update_rejected (repository.reads repo) id req w Hbad)
        as [msg ->].
      eauto. }
  rewrite (Update_validated _ _ _ _ Hs He). cbn [db emit now trace].
  destruct (repository.GetByID (repository.reads repo) id (db w))
    as [existing|e] eqn:Hex; [|eauto].
  pose proof (Hdb _ (repository.GetByID_row _ _ rows _ _ _ Hex)) as Hwd.
  match goal with
  | |- context [repository.Update _ ?s (db w)] =>
      destruct (repository.Update (repository.reads repo) s (db w))
        as [db' err] eqn:Hu;
      assert (Hnew : well_dated s = true)
  end.
  { revert Hwd. unfold well_dated. cbn.
    intros [H1 H2]%andb_true_iff. apply andb_true_iff. split.
    - destruct (models.upd_StartDate req) as [d|] eqn:Hd; cbn; auto.
    - destruct (models.upd_EndDate req) as [d|] eqn:Hd; cbn; auto.
      destruct (He d eq_refl) as [-> | Hv]; [contradiction | exact Hv]. }
  assert (Hdb' : well_dated_rows row db').
  { intros s Hrow.
    destruct (repository.Update_rows _ _ rows _ _ _ _ _ Hu Hrow)
      as [Hold | [H1 H2]]; [exact (Hdb s Hold)|].
    revert Hnew. unfold well_dated. rewrite H1, H2. cbn. auto. }
  destruct err; eauto.
Qed.

Lemma ServeHTTP_keeps_well_dated r (w : World DB) :
  well_dated_rows row (db w) ->
  clears_end_date r = false ->
  exists response w',
    app.ServeHTTP repo uuid_Parse r w = Ret (response, w')
    /\ well_dated_rows row (db w').
Proof.
  intros Hdb Hr. destruct r as [bound fresh|u n|id|id bound|id|bound];
    cbn [app.ServeHTTP].
  - unfold handlers.CreateSubscription. destruct bound as [req|err]; [|eauto].
    destruct (Create_keeps_well_dated req fresh w Hdb)
      as (r & w' & -> & Hw').
    cbn [exec_bind]. destruct r; eauto.
  - unfold handlers.ListSubscriptions, service.List. cbn [db emit].
    destruct (negb (u =? "")%string); [destruct (uuid_Parse u)|];
      try (match goal with
           | |- context [repository.List ?r ?f (db w)] =>
               destruct (repository.List r f (db w))
           end; cbn [exec_bind]); eauto.
  - unfold handlers.GetSubscription. destruct (uuid_Parse id) as [i|]; [|eauto].
    pose proof (GetByID_cases (repository.reads repo) i w) as H.
    destruct (repository.GetByID (repository.reads repo) i (db w))
      as [sub|[msg| |msg]]; rewrite H; cbn [exec_bind]; eauto.
  - unfold handlers.UpdateSubscription.
    destruct (uuid_Parse id) as [i|]; [|eauto].
    destruct bound as [req|err]; [|eauto].
    cbn [clears_end_date] in Hr. apply bool_decide_eq_false in Hr.
    destruct (Update_keeps_well_dated i req w Hdb Hr) as (r & w' & -> & Hw').
    cbn [exec_bind]. destruct r; eauto.
  - unfold handlers.DeleteSubscription, service.Delete.
    destruct (uuid_Parse id) as [i|]; [|eauto].
    destruct (repository.Delete repo i (db w)) as [db' err] eqn:Hd.
    assert (Hdb' : well_dated_rows row db').
    { intros s Hrow.
      exact (Hdb s (repository.Delete_rows _ _ rows _ _ _ _ _ Hd Hrow)). }
    destruct err; cbn [exec_bind]; eauto.
  - unfold handlers.GetTotalCost. destruct bound as [req|err]; [|eauto].
    destruct (GetTotalCost_returns req w Hdb) as (r & w' & -> & Hw').
    cbn [exec_bind]. destruct r; do 2 eexists;
      (split; [reflexivity|]); rewrite Hw'; exact Hdb.
Qed.

(** X12: over a repository that keeps to its rows, starting from rows
    with valid dates, every sequence of requests in which no PUT sets the
    end date to the empty string is served to the end without a panic, one
    response for each request, and leaves rows with valid dates. *)
Theorem serve_never_panics rs (w : World DB) :
  well_dated_rows row (db w) ->
  Forall (fun r => clears_end_date r.2 = false) rs ->
  exists responses w',
    app.serve repo uuid_Parse rs w = Ret (responses, w')
    /\ length responses = length rs
    /\ well_dated_rows row (db w').
Proof.
  revert w. induction rs as [|[t r] rs IH]; intros w Hdb Hrs;
    cbn [app.serve].
  - eauto.
  - inversion Hrs as [|? ? Hr Hrest]; subst.
    destruct (ServeHTTP_keeps_well_dated r
                (mkWorld (db w) t (trace w)) Hdb Hr)
      as (response & w1 & -> & Hw1).
    cbn [exec_bind].
    destruct (IH w1 Hw1 Hrest) as (responses & w2 & -> & Hlen & Hw2).
    cbn [exec_bind]. do 2 eexists. split; [reflexivity|].
    split; [cbn; congruence | exact Hw2].
Qed.

End Rows.

(** The table keeps to its rows. *)
Lemma table_rows : repository.Rows repository.crud_table table_row.
Proof.
  split; cbn [repository.GetByID repository.List repository.Update
              repository.Create repository.Delete repository.reads
              repository.crud_table repository.table].
  - intros id db sub. destruct (db !! id) as [s|] eqn:H; [|discriminate].
    intros [= <-]. exists id. exact H.
  - intros filters db subs [= <-]. apply list.Forall_forall. intros sub Hin.
    apply list_elem_of_filter in Hin as [_ Hin].
    apply list_elem_of_fmap in Hin as ([k s] & -> & Hin).
    apply elem_of_map_to_list in Hin. exists k. exact Hin.
  - intros s db db' err sub. destruct (db !! models.ID s) eqn:H.
    + intros [= <- _]. auto.
    + intros [= <- _] [k Hk].
      destruct (decide (k = models.ID s)) as [-> | Hne].
      * rewrite lookup_insert_eq in Hk. right. congruence.
      * rewrite lookup_insert_ne in Hk by congruence. left. exists k. exact Hk.
  - intros s db db' err sub. destruct (db !! models.ID s) eqn:H.
    + intros [= <- _] [k Hk].
      destruct (decide (k = models.ID s)) as [-> | Hne].
      * rewrite lookup_insert_eq in Hk. right. injection Hk as <-.
        split; reflexivity.
      * rewrite lookup_insert_ne in Hk by congruence. left. exists k. exact Hk.
    + intros [= <- _]. auto.
  - intros id db db' err sub [= <- _] [k Hk].
    destruct (decide (k = id)) as [-> | Hne].
    + rewrite lookup_delete_eq in Hk. discriminate.
    + rewrite lookup_delete_ne in Hk by congruence. exists k. exact Hk.
Qed.

(** X13: when the repository deletes without error, [DeleteSubscription]
    answers 204 and logs the deletion, and once the row is gone a
    [GetSubscription] for the same id is answered 500. *)
Theorem DeleteSubscription_then_GetSubscription {DB}
    (repo : repository.CRUD DB)
    (uuid_Parse : string -> option models.UUID) idStr id (w : World DB) db1 :
  uuid_Parse idStr = Some id ->
  repository.Delete repo id (db w) = (db1, None) ->
  repository.GetByID (repository.reads repo) id db1 = Err ErrNoRows ->
  exists w1,
    handlers.DeleteSubscription repo uuid_Parse idStr w
    = Ret (handlers.mkResponse http.StatusNoContent handlers.NoBody, w1)
    /\ db w1 = db1
    /\ trace w1 = trace w ++ [LogInfo "Subscription deleted"]
    /\ handlers.GetSubscription repo uuid_Parse idStr w1
       = Ret (handlers.mkResponse http.StatusInternalServerError
                (handlers.ErrorBody "Failed to get subscription"),
              emit (CallGetByID id) w1).
Proof.
  intros Hp Hd Hg. unfold handlers.DeleteSubscription, service.Delete.
  rewrite Hp, Hd. cbn [exec_bind].
  eexists. split; [reflexivity|]. cbn [db trace emit].
  split; [reflexivity|]. split; [reflexivity|].
  unfold handlers.GetSubscription. rewrite Hp.
  match goal with
  | |- context [service.GetByID ?r id ?w1] =>
      pose proof (GetByID_cases r id w1) as H
  end.
  cbn [db emit] in H. rewrite Hg in H. rewrite H. reflexivity.
Qed.


(** ** Windows and intervals *)

Lemma reads_as_well_dated sub r : reads_as sub r -> well_dated sub = true.
Proof.
  intros (_ & Hs & He). unfold well_dated.
  rewrite (denotes_accepted _ _ Hs). cbn [andb].
  destruct (models.EndDate sub) as [e|], (Spec.term r) as [c|];
    try contradiction; [|reflexivity].
  exact (denotes_accepted _ _ He).
Qed.

(** X14: a record whose end date is a valid month before its valid start
    month passes the date checks of [Create] and [Update] and leaves the
    running total of the aggregation loop unchanged, for every valid
    window. *)
Theorem reversed_subscription_contributes_nothing ws we sub ss se e acc :
  Spec.valid ws -> Spec.valid we ->
  Spec.denotes (models.StartDate sub) ss ->
  models.EndDate sub = Some e ->
  Spec.denotes e se ->
  Spec.precedes se ss ->
  GoInt.is_int acc ->
  well_dated sub = true
  /\ service.totalCost_step (toTime ws) (toTime we) acc sub = Ret acc.
Proof.
  intros Hws Hwe Hs He Hse Hrev Hacc.
  assert (Hr : reads_as sub
                 (Spec.mkInterval (models.Price sub) ss (Spec.Closed se))).
  { split; [reflexivity|]. split; [exact Hs|]. rewrite He. exact Hse. }
  split; [exact (reads_as_well_dated _ _ Hr)|].
  rewrite (totalCost_step_reads ws we sub _ acc Hws Hwe Hr).
  cbn [Spec.term Spec.price Spec.start].
  assert (Hss : Spec.valid ss) by eauto using denotes_valid.
  assert (Hvse : Spec.valid se) by eauto using denotes_valid.
  rewrite overlapMonths_index by assumption.
  apply precedes_index in Hrev; [|assumption..].
  replace (Z.max 0 _) with 0 by lia.
  unfold GoInt.add, GoInt.mul. rewrite Z.mul_0_r.
  rewrite (wrap_id 0 zero_is_int), Z.add_0_r, wrap_id by exact Hacc.
  reflexivity.
Qed.

Lemma in_windowb_index ws we c :
  Spec.valid ws -> Spec.valid we -> Spec.valid c ->
  Spec.in_windowb ws we c
  = (month_index ws <=? month_index c) && (month_index c <=? month_index we).
Proof.
  intros Hws Hwe Hc. unfold Spec.in_windowb.
  rewrite !precedesb_index by assumption.
  destruct (Z.ltb_spec (month_index c) (month_index ws)),
    (Z.ltb_spec (month_index we) (month_index c)),
    (Z.leb_spec (month_index ws) (month_index c)),
    (Z.leb_spec (month_index c) (month_index we)); cbn; try reflexivity; lia.
Qed.

Lemma contribution_splits ws wm wn we r :
  Spec.valid ws -> Spec.valid wm -> Spec.valid wn -> Spec.valid we ->
  Spec.valid (Spec.start r) ->
  match Spec.term r with Spec.Closed c => Spec.valid c | _ => True end ->
  month_index ws <= month_index wm ->
  month_index wn = month_index wm + 1 ->
  month_index wn <= month_index we ->
  Spec.contribution ws we r
  = Spec.contribution ws wm r + Spec.contribution wn we r.
Proof.
  intros Hws Hwm Hwn Hwe Hs Hc H1 H2 H3. unfold Spec.contribution.
  destruct (Spec.term r) as [c|].
  - rewrite !overlapMonths_index by assumption.
    rewrite <- Z.mul_add_distr_l. f_equal. lia.
  - rewrite !in_windowb_index by assumption.
    destruct (Z.leb_spec (month_index ws) (month_index (Spec.start r))),
      (Z.leb_spec (month_index (Spec.start r)) (month_index we)),
      (Z.leb_spec (month_index (Spec.start r)) (month_index wm)),
      (Z.leb_spec (month_index wn) (month_index (Spec.start r)));
      cbn; lia.
Qed.

Lemma spec_total_splits ws wm wn we rs :
  Spec.valid ws -> Spec.valid wm -> Spec.valid wn -> Spec.valid we ->
  Forall (fun r => Spec.valid (Spec.start r)
                   /\ match Spec.term r with
                      | Spec.Closed c => Spec.valid c
                      | _ => True
                      end) rs ->
  month_index ws <= month_index wm ->
  month_index wn = month_index wm + 1 ->
  month_index wn <= month_index we ->
  Spec.totalCost ws we rs = Spec.totalCost ws wm rs + Spec.totalCost wn we rs.
Proof.
  intros Hws Hwm Hwn Hwe Hrs H1 H2 H3. unfold Spec.totalCost.
  induction Hrs as [|r rs [Hs Hc] _ IH]; cbn [map foldr]; [reflexivity|].
  rewrite IH, (contribution_splits ws wm wn we r) by assumption. lia.
Qed.

Lemma reads_as_valid subs rs :
  Forall2 reads_as subs rs ->
  Forall (fun r => Spec.valid (Spec.start r)
                   /\ match Spec.term r with
                      | Spec.Closed c => Spec.valid c
                      | _ => True
                      end) rs.
Proof.
  induction 1 as [|sub r subs rs (_ & Hs & He) _ IH]; constructor; [|exact IH].
  split; [exact (denotes_valid _ _ Hs)|].
  destruct (models.EndDate sub) as [e|], (Spec.term r) as [c|];
    try contradiction; [|exact I].
  exact (denotes_valid _ _ He).
Qed.

(** X15: for records with valid dates, the total over a window is the sum
    (in [int] arithmetic) of the totals over its two parts, the window
    being split between a month and the next one. *)
Theorem totalCost_splits_at_month_boundary ws wm wn we subs rs :
  Spec.valid ws -> Spec.valid wm -> Spec.valid wn -> Spec.valid we ->
  Spec.le ws wm ->
  month_index wn = month_index wm + 1 ->
  Spec.le wn we ->
  Forall2 reads_as subs rs ->
  exists a b,
    service.totalCost_loop (toTime ws) (toTime wm) subs 0 = Ret a
    /\ service.totalCost_loop (toTime wn) (toTime we) subs 0 = Ret b
    /\ service.totalCost_loop (toTime ws) (toTime we) subs 0
       = Ret (GoInt.add a b).
Proof.
  intros Hws Hwm Hwn Hwe H1 H2 H3 Hrs.
  apply le_index in H1; [|assumption..].
  apply le_index in H3; [|assumption..].
  pose proof (totalCost_loop_wrap ws wm subs rs 0 Hws Hwm Hrs) as Ha.
  pose proof (totalCost_loop_wrap wn we subs rs 0 Hwn Hwe Hrs) as Hb.
  pose proof (totalCost_loop_wrap ws we subs rs 0 Hws Hwe Hrs) as Hc.
  rewrite (wrap_id 0 zero_is_int) in Ha, Hb, Hc. cbn [Z.add] in Ha, Hb, Hc.
  do 2 eexists. split; [exact Ha|]. split; [exact Hb|].
  rewrite Hc. unfold GoInt.add. rewrite wrap_add_l, wrap_add_r.
  rewrite (spec_total_splits ws wm wn we rs) by
    (try assumption; apply (reads_as_valid subs), Hrs).
  reflexivity.
Qed.

(** ** Instances *)

Lemma GetSubscription_never_answers_404_witness :
  service.GetByID repository.table 3%N (world_of [])
  = Ret (Err (Errorf "not found"), emit (CallGetByID 3%N) (world_of []))
  /\ handlers.GetSubscription repository.crud_table (fun _ => Some 3%N) "3"
       (world_of [])
     = Ret (handlers.mkResponse http.StatusInternalServerError
              (handlers.ErrorBody "Failed to get subscription"),
            emit (CallGetByID 3%N) (world_of [])).
Proof.
  destruct (GetSubscription_never_answers_404 repository.crud_table
              (fun _ => Some 3%N) "3" (world_of []))
    as (response & w' & Hrun & _ & H).
  destruct (H 3%N) as (Hs & -> & ->); [reflexivity | reflexivity |].
  split; [exact Hs | exact Hrun].
Defined.


Lemma service_errors_answered_500_witness :
  exists response w',
    handlers.ListSubscriptions repository.crud_table (fun _ => None)
      "seven" "svc" (world_of [])
    = Ret (response, w')
    /\ (handlers.status response = http.StatusOK
        \/ handlers.status response = http.StatusBadRequest
        \/ handlers.status response = http.StatusInternalServerError).
Proof.
  destruct (handlers.ListSubscriptions repository.crud_table (fun _ => None)
              "seven" "svc" (world_of []))
    as [[response w']|p] eqn:Hrun; [|vm_compute in Hrun; discriminate].
  exists response, w'. split; [reflexivity|].
  destruct (service_errors_answered_500 repository.crud_table
              (fun _ => None) (world_of [])) as (_ & H & _).
  exact (H _ _ _ _ Hrun).
Defined.

Lemma Create_validates_dates_witness :
  exists msg,
    service.Create repository.crud_table
      (models.mkSubscriptionCreate "svc" 100 7%N "05-2025" (Some ""))
      (service.mkFresh 9%N t0 t0) (world_of [])
    = Ret (Err (Errorf msg), world_of []).
Proof.
  destruct (Create_validates_dates repository.crud_table
              (models.mkSubscriptionCreate "svc" 100 7%N "05-2025" (Some ""))
              (service.mkFresh 9%N t0 t0) (world_of []))
    as (_ & _ & H & _).
  apply H. reflexivity.
Defined.

Lemma UpdateSubscription_missing_id_witness :
  exists msg w',
    handlers.UpdateSubscription repository.crud_table (fun _ => Some 3%N) "3"
      (Ok (models.mkSubscriptionUpdate None (Some 5) None None None))
      (world_of [])
    = Ret (handlers.mkResponse http.StatusBadRequest (handlers.ErrorBody msg),
           w')
    /\ msg = "sql: no rows in result set".
Proof.
  destruct (UpdateSubscription_missing_id repository.crud_table
              (fun _ => Some 3%N) "3" 3%N
              (models.mkSubscriptionUpdate None (Some 5) None None None)
              (world_of []))
    as (msg & w' & Hrun & _ & _ & H); [reflexivity | reflexivity |].
  exists msg, w'. split; [exact Hrun|].
  destruct H as [H _]; [discriminate | discriminate | exact H].
Defined.

Lemma List_query_placeholders_witness :
  repository.List_query
    (<["order_by" := Some (FString "price")]>
       (<["user_id" := Some (FUUID 7%N)]> ∅))
  = repository.List_query (<["user_id" := Some (FUUID 7%N)]> ∅).
Proof.
  destruct (List_query_placeholders (<["user_id" := Some (FUUID 7%N)]> ∅))
    as (_ & H & _).
  apply H; discriminate.
Defined.

Lemma DeleteSubscription_then_GetSubscription_witness :
  exists w1,
    handlers.DeleteSubscription repository.crud_table (fun _ => Some 3%N) "3"
      (world_of [sub_of 1 100 "06-2024" (Some "03-2025")])
    = Ret (handlers.mkResponse http.StatusNoContent handlers.NoBody, w1)
    /\ handlers.GetSubscription repository.crud_table (fun _ => Some 3%N) "3"
         w1
       = Ret (handlers.mkResponse http.StatusInternalServerError
                (handlers.ErrorBody "Failed to get subscription"),
              emit (CallGetByID 3%N) w1).
Proof.
  destruct (DeleteSubscription_then_GetSubscription repository.crud_table
              (fun _ => Some 3%N) "3" 3%N
              (world_of [sub_of 1 100 "06-2024" (Some "03-2025")])
              (delete 3%N
                 (db (world_of [sub_of 1 100 "06-2024" (Some "03-2025")]))))
    as (w1 & Hdel & _ & _ & Hget); [reflexivity | reflexivity | reflexivity |].
  exists w1. split; [exact Hdel | exact Hget].
Defined.

Lemma totalCost_loop_panics_iff_witness :
  (exists total,
      service.totalCost_loop (toTime jan_2025) (toTime dec_2025)
        [sub_of 1 100 "06-2024" (Some "03-2025")] 0 = Ret total)
  /\ service.totalCost_loop (toTime jan_2025) (toTime dec_2025)
       [sub_of 1 100 "06-2024" (Some "")] 0
     = Panic (IndexOutOfRange 1 1).
Proof.
  split.
  - destruct (totalCost_loop_panics_iff (toTime jan_2025) (toTime dec_2025)
                [sub_of 1 100 "06-2024" (Some "03-2025")])
      as (H & _ & Hw).
    apply H, Hw. constructor; [reflexivity | constructor].
  - destruct (totalCost_loop_panics_iff (toTime jan_2025) (toTime dec_2025)
                [sub_of 1 100 "06-2024" (Some "")])
      as (_ & H & _).
    apply H. intros HF. inversion HF as [|? ? [_ Hsep] _].
    apply (Hsep EmptyString eq_refl). exact I.
Defined.

Lemma totalCost_loop_order_independent_witness :
  service.totalCost_loop (toTime jan_2025) (toTime dec_2025)
    [sub_of 1 100 "06-2024" (Some "03-2025"); sub_of 2 400 "07-2025" None] 0
  = service.totalCost_loop (toTime jan_2025) (toTime dec_2025)
      [sub_of 2 400 "07-2025" None; sub_of 1 100 "06-2024" (Some "03-2025")]
      0.
Proof.
  apply totalCost_loop_order_independent, perm_swap.
Defined.

Lemma GetTotalCost_aggregates_what_List_returns_witness :
  service.GetTotalCost repository.table
    (models.mkTotalCostRequest None None "01-2025" "12-2025")
    (world_of [sub_of 1 100 "06-2024" (Some "03-2025")])
  = let* totalCost :=
      service.totalCost_loop (toTime jan_2025) (toTime dec_2025)
        [sub_of 1 100 "06-2024" (Some "03-2025")] 0 in
    Ret (Ok (models.mkTotalCostResponse totalCost),
         emit (LogInfo "Total cost calculated")
           (emit (CallList ∅)
              (world_of [sub_of 1 100 "06-2024" (Some "03-2025")]))).
Proof.
  apply (GetTotalCost_aggregates_what_List_returns repository.table
           None None "01-2025" "12-2025" jan_2025 dec_2025);
    [reflexivity | exact denotes_01_2025 | exact denotes_12_2025
     | order_of_months].
Defined.

Lemma Update_keeps_identity_witness :
  exists sub w',
    service.Update repository.table 1%N
      (models.mkSubscriptionUpdate None (Some 250) None None None)
      (world_of [sub_of 1 100 "06-2024" (Some "03-2025")])
    = Ret (Ok sub, w')
    /\ models.ID sub = 1%N
    /\ models.EndDate sub <> None.
Proof.
  destruct (service.Update repository.table 1%N
              (models.mkSubscriptionUpdate None (Some 250) None None None)
              (world_of [sub_of 1 100 "06-2024" (Some "03-2025")]))
    as [[[sub|e] w']|p] eqn:Hrun; try (vm_compute in Hrun; discriminate).
  destruct (Update_keeps_identity repository.table 1%N
              (models.mkSubscriptionUpdate None (Some 250) None None None)
              (world_of [sub_of 1 100 "06-2024" (Some "03-2025")])
              (sub_of 1 100 "06-2024" (Some "03-2025")) sub w' eq_refl Hrun)
    as (Hid & _ & _ & Hend & _).
  exists sub, w'. split; [reflexivity|]. split; [exact Hid|].
  apply Hend. discriminate.
Defined.

Lemma calculateOverlapMonths_bounds_witness :
  0 <= service.calculateOverlapMonths
         (toTime jan_2025) (toTime dec_2025) (toTime jun_2024) (toTime mar_2025)
    <= 97200.
Proof.
  destruct (calculateOverlapMonths_bounds jan_2025 dec_2025 jun_2024 mar_2025)
    as [H _]; [valid_month.. | exact H].
Defined.

Lemma reversed_subscription_contributes_nothing_witness :
  well_dated (sub_of 1 100 "03-2025" (Some "06-2024")) = true
  /\ service.totalCost_step (toTime jan_2025) (toTime dec_2025) 0
       (sub_of 1 100 "03-2025" (Some "06-2024"))
     = Ret 0.
Proof.
  apply (reversed_subscription_contributes_nothing jan_2025 dec_2025
           (sub_of 1 100 "03-2025" (Some "06-2024")) mar_2025 jun_2024
           "06-2024" 0);
    [valid_month | valid_month | exact denotes_03_2025 | reflexivity
     | exact denotes_06_2024 | left; cbn; lia | exact zero_is_int].
Defined.

Lemma totalCost_splits_at_month_boundary_witness :
  exists a b,
    service.totalCost_loop (toTime jan_2025) (toTime jan_2025)
      [sub_of 1 100 "06-2024" (Some "03-2025")] 0 = Ret a
    /\ service.totalCost_loop (toTime feb_2025) (toTime dec_2025)
         [sub_of 1 100 "06-2024" (Some "03-2025")] 0 = Ret b
    /\ service.totalCost_loop (toTime jan_2025) (toTime dec_2025)
         [sub_of 1 100 "06-2024" (Some "03-2025")] 0
       = Ret (GoInt.add a b).
Proof.
  apply (totalCost_splits_at_month_boundary jan_2025 jan_2025 feb_2025
           dec_2025 _ [Spec.mkInterval 100 jun_2024 (Spec.Closed mar_2025)]);
    [valid_month | valid_month | valid_month | valid_month
     | order_of_months | reflexivity | order_of_months |].
  constructor; [|constructor].
  split; [reflexivity|].
  split; [exact denotes_06_2024 | exact denotes_03_2025].
Defined.

Lemma serve_never_panics_witness :
  exists responses w',
    app.serve repository.crud_table (fun _ => Some 3%N)
      [(t0, app.POST_subscriptions
              (Ok (models.mkSubscriptionCreate "svc" 100 7%N "05-2025" None))
              (service.mkFresh 9%N t0 t0));
       (t0, app.POST_subscriptions_total_cost
              (Ok (window "01-2025" "12-2025")))]
      (world_of [])
    = Ret (responses, w')
    /\ length responses = 2%nat.
Proof.
  destruct (serve_never_panics repository.crud_table table_row
              (fun _ => Some 3%N) table_rows
              [(t0, app.POST_subscriptions
                      (Ok (models.mkSubscriptionCreate "svc" 100 7%N
                             "05-2025" None))
                      (service.mkFresh 9%N t0 t0));
               (t0, app.POST_subscriptions_total_cost
                      (Ok (window "01-2025" "12-2025")))]
              (world_of []))
    as (responses & w' & Hrun & Hlen & _).
  - intros sub [id Hid]. discriminate Hid.
  - repeat constructor.
  - exists responses, w'. split; [exact Hrun | exact Hlen].
Defined.
